(** * gitprotocolio: the protocol v1 git-upload-pack response

    A shallow embedding of [v1uploadpackresp.go]: the response chunk, its
    encoder [EncodeToPktLine] and the stateful decoder [Scan], followed by
    the properties of the encoder, of the decoder's phase grammar and of
    their composition. *)

From Stdlib Require Import Strings.String Strings.Ascii Strings.Byte.
From Stdlib Require Import Lists.List Bool.Bool Arith.Arith Arith.PeanoNat NArith Lia.
Import ListNotations.

Local Open Scope list_scope.
Local Open Scope string_scope.

(** ** Go values

    A Go [string] is a byte sequence and is modelled by [string]; a [[]byte]
    is modelled by [list byte].  The conversions [string(b)] and [[]byte(s)]
    copy the bytes. *)

Definition bytes := list byte.

Definition string_of_bytes (b : bytes) : string := string_of_list_byte b.
Definition bytes_of_string (s : string) : bytes := list_byte_of_string s.

(** [bytes.Equal]. *)
Definition bytes_Equal (a b : bytes) : bool :=
  if list_eq_dec Byte.byte_eq_dec a b then true else false.

(** [bytes.HasPrefix]:
    [len(s) >= len(prefix) && Equal(s[0:len(prefix)], prefix)]. *)
Definition bytes_HasPrefix (s prefix : bytes) : bool :=
  (length prefix <=? length s)%nat && bytes_Equal (firstn (length prefix) s) prefix.

(** [strings.HasSuffix]:
    [len(s) >= len(suffix) && s[len(s)-len(suffix):] == suffix]. *)
Definition strings_HasSuffix (s suffix : string) : bool :=
  (String.length suffix <=? String.length s)%nat
  && String.eqb
       (substring (String.length s - String.length suffix) (String.length suffix) s)
       suffix.

(** [strings.TrimSuffix]: [s] without the trailing [suffix], when it has one. *)
Definition strings_TrimSuffix (s suffix : string) : string :=
  if strings_HasSuffix s suffix
  then substring 0 (String.length s - String.length suffix) s
  else s.

(** [strings.HasPrefix]:
    [len(s) >= len(prefix) && s[0:len(prefix)] == prefix]. *)
Definition strings_HasPrefix (s prefix : string) : bool :=
  (String.length prefix <=? String.length s)%nat
  && String.eqb (substring 0 (String.length prefix) s) prefix.

(** [strings.Index]: the position of the first instance of [sep] in [s]. *)
Fixpoint strings_Index (s sep : string) : option nat :=
  if strings_HasPrefix s sep then Some 0
  else match s with
       | EmptyString => None
       | String _ s' => option_map S (strings_Index s' sep)
       end.

(** [s[n:]]. *)
Fixpoint string_drop (n : nat) (s : string) : string :=
  match n, s with
  | O, _ => s
  | S n', String _ s' => string_drop n' s'
  | S _, EmptyString => EmptyString
  end.

(** The loop of [strings.genSplit] for a non-empty separator; [k] is the
    number of cuts still allowed ([n - 1 - i] in the Go loop). *)
Fixpoint genSplit (k : nat) (s sep : string) : list string :=
  match k with
  | O => [s]
  | S k' =>
      match strings_Index s sep with
      | None => [s]
      | Some m =>
          substring 0 m s :: genSplit k' (string_drop (m + String.length sep) s) sep
      end
  end.

(** [strings.SplitN(s, sep, n)] for [n >= 0] and a non-empty [sep] (the
    decoder only splits on a single space): [n = 0] gives no substring,
    otherwise at most [n] substrings, the last one being the unsplit
    remainder. *)
Definition strings_SplitN (s sep : string) (n : nat) : list string :=
  match n with
  | O => []
  | S k => genSplit k s sep
  end.

(** The line feed ending every text line of the protocol. *)
Definition LF : string := String "010" EmptyString.

(** ** Results

    A Go function either returns or panics. *)
Inductive result (A : Type) : Type :=
| Ok (a : A)
| Panic (msg : string).
Arguments Ok {A} a.
Arguments Panic {A} msg.

Definition bind {A B} (m : result A) (f : A -> result B) : result B :=
  match m with
  | Ok a => f a
  | Panic msg => Panic msg
  end.

Notation "x <- m ;; k" := (bind m (fun x => k))
  (at level 61, m at next level, right associativity).

(** [ss[i]]: indexing a slice out of range panics. *)
Definition index (ss : list string) (i : nat) : result string :=
  match nth_error ss i with
  | Some s => Ok s
  | None => Panic "index out of range"
  end.

(** ** The framing layer (package-level collaborators of this file) *)

(** Modelled from the spec: the [Packet] interface of the framing layer,
    which is not part of this file.  A frame is a flush marker or an opaque
    byte payload; the decoder's type switch also has a [default] arm for any
    other implementation of the interface, kept here as [OtherPacket]. *)
Inductive Packet : Type :=
| FlushPacket
| BytesPacket (bp : bytes)
| OtherPacket (kind : nat).

(** Errors: [SyntaxError] is the package's string error type; [ReadError]
    stands for any other error the underlying reader surfaces. *)
Inductive error : Type :=
| SyntaxError (msg : string)
| ReadError (msg : string).

(** Modelled from the spec: the [PacketScanner] of the framing layer, which
    is not part of this file.  It delivers the frames of its input one by one
    ([pending]); when none is left, [Scan] reports [false] and [Err] gives the
    error the input ended with, [None] for a plain end-of-input ([ending]).
    [packet] is the frame delivered by the last successful [Scan]. *)
Record PacketScanner : Type := {
  pending : list Packet;
  ending : option error;
  packet : option Packet
}.

Definition NewPacketScanner (rd : list Packet * option error) : PacketScanner :=
  {| pending := fst rd; ending := snd rd; packet := None |}.

Definition PacketScanner_Scan (s : PacketScanner) : bool * PacketScanner :=
  match pending s with
  | [] => (false, s)
  | p :: rest => (true, {| pending := rest; ending := ending s; packet := Some p |})
  end.

Definition PacketScanner_Err (s : PacketScanner) : option error :=
  match pending s with
  | [] => ending s
  | _ :: _ => None
  end.

Definition PacketScanner_Packet (s : PacketScanner) : result Packet :=
  match packet s with
  | Some p => Ok p
  | None => Panic "nil packet"
  end.

(** ** The response chunk *)

Inductive protocolV1UploadPackResponseState : Type :=
| protocolV1UploadPackResponseStateBegin
| protocolV1UploadPackResponseStateScanShallows
| protocolV1UploadPackResponseStateScanUnshallows
| protocolV1UploadPackResponseStateBeginAcknowledgements
| protocolV1UploadPackResponseStateScanAcknowledgements
| protocolV1UploadPackResponseStateScanPacks
| protocolV1UploadPackResponseStateEnd.

Abbreviation StBegin := protocolV1UploadPackResponseStateBegin.
Abbreviation StScanShallows := protocolV1UploadPackResponseStateScanShallows.
Abbreviation StScanUnshallows := protocolV1UploadPackResponseStateScanUnshallows.
Abbreviation StBeginAcks := protocolV1UploadPackResponseStateBeginAcknowledgements.
Abbreviation StScanAcks := protocolV1UploadPackResponseStateScanAcknowledgements.
Abbreviation StScanPacks := protocolV1UploadPackResponseStateScanPacks.
Abbreviation StEnd := protocolV1UploadPackResponseStateEnd.

(** The constants are an [iota] enumeration. *)
Definition state_rank (s : protocolV1UploadPackResponseState) : nat :=
  match s with
  | StBegin => 0
  | StScanShallows => 1
  | StScanUnshallows => 2
  | StBeginAcks => 3
  | StScanAcks => 4
  | StScanPacks => 5
  | StEnd => 6
  end.

Definition state_eqb (a b : protocolV1UploadPackResponseState) : bool :=
  (state_rank a =? state_rank b)%nat.

Record ProtocolV1UploadPackResponseChunk : Type := {
  ShallowObjectID : string;
  UnshallowObjectID : string;
  EndOfShallows : bool;
  AckObjectID : string;
  AckDetail : string;
  Nak : bool;
  PackStream : bytes;
  EndOfRequest : bool
}.

(** The zero value of the struct. *)
Definition zeroChunk : ProtocolV1UploadPackResponseChunk :=
  {| ShallowObjectID := ""; UnshallowObjectID := ""; EndOfShallows := false;
     AckObjectID := ""; AckDetail := ""; Nak := false; PackStream := [];
     EndOfRequest := false |}.

Definition nonempty (s : string) : bool := negb (String.eqb s "").

(** The seven composite literals the decoder builds. *)
Definition shallowChunk (id : string) : ProtocolV1UploadPackResponseChunk :=
  {| ShallowObjectID := id; UnshallowObjectID := ""; EndOfShallows := false;
     AckObjectID := ""; AckDetail := ""; Nak := false; PackStream := [];
     EndOfRequest := false |}.

Definition unshallowChunk (id : string) : ProtocolV1UploadPackResponseChunk :=
  {| ShallowObjectID := ""; UnshallowObjectID := id; EndOfShallows := false;
     AckObjectID := ""; AckDetail := ""; Nak := false; PackStream := [];
     EndOfRequest := false |}.

Definition endOfShallowsChunk : ProtocolV1UploadPackResponseChunk :=
  {| ShallowObjectID := ""; UnshallowObjectID := ""; EndOfShallows := true;
     AckObjectID := ""; AckDetail := ""; Nak := false; PackStream := [];
     EndOfRequest := false |}.

Definition ackChunk (id detail : string) : ProtocolV1UploadPackResponseChunk :=
  {| ShallowObjectID := ""; UnshallowObjectID := ""; EndOfShallows := false;
     AckObjectID := id; AckDetail := detail; Nak := false; PackStream := [];
     EndOfRequest := false |}.

Definition nakChunk : ProtocolV1UploadPackResponseChunk :=
  {| ShallowObjectID := ""; UnshallowObjectID := ""; EndOfShallows := false;
     AckObjectID := ""; AckDetail := ""; Nak := true; PackStream := [];
     EndOfRequest := false |}.

Definition packChunk (p : bytes) : ProtocolV1UploadPackResponseChunk :=
  {| ShallowObjectID := ""; UnshallowObjectID := ""; EndOfShallows := false;
     AckObjectID := ""; AckDetail := ""; Nak := false; PackStream := p;
     EndOfRequest := false |}.

Definition endOfRequestChunk : ProtocolV1UploadPackResponseChunk :=
  {| ShallowObjectID := ""; UnshallowObjectID := ""; EndOfShallows := false;
     AckObjectID := ""; AckDetail := ""; Nak := false; PackStream := [];
     EndOfRequest := true |}.

(** The packet a call of [EncodeToPktLine] builds: the receiver of the
    [EncodeToPktLine()] call that ends the return taken, or the final
    panic.  [EncodeToPktLine] itself, with that call, follows. *)
Definition encodedPacket (c : ProtocolV1UploadPackResponseChunk) : result Packet :=
  if nonempty (ShallowObjectID c) then
    Ok (BytesPacket (bytes_of_string ("shallow " ++ ShallowObjectID c ++ LF)))
  else if nonempty (UnshallowObjectID c) then
    Ok (BytesPacket (bytes_of_string ("unshallow " ++ UnshallowObjectID c ++ LF)))
  else if EndOfShallows c then
    Ok FlushPacket
  else if nonempty (AckObjectID c) then
    if nonempty (AckDetail c) then
      Ok (BytesPacket (bytes_of_string
            ("ACK " ++ AckObjectID c ++ " " ++ AckDetail c ++ LF)))
    else
      Ok (BytesPacket (bytes_of_string ("ACK " ++ AckObjectID c ++ LF)))
  else if Nak c then
    Ok (BytesPacket (bytes_of_string ("NAK" ++ LF)))
  else if negb (length (PackStream c) =? 0)%nat then
    Ok (BytesPacket (PackStream c))
  else if EndOfRequest c then
    Ok FlushPacket
  else
    Panic "impossible chunk".

Section Encoder.

(** The [EncodeToPktLine] method of a packet.  It belongs to the framing
    layer, not to this file, and is taken as given: it returns the
    length-prefixed bytes of the packet, or aborts when the content does not
    fit the length prefix. *)
Variable Packet_EncodeToPktLine : Packet -> result bytes.

(** [EncodeToPktLine] serializes the chunk. *)
Definition EncodeToPktLine (c : ProtocolV1UploadPackResponseChunk) : result bytes :=
  if nonempty (ShallowObjectID c) then
    Packet_EncodeToPktLine
      (BytesPacket (bytes_of_string ("shallow " ++ ShallowObjectID c ++ LF)))
  else if nonempty (UnshallowObjectID c) then
    Packet_EncodeToPktLine
      (BytesPacket (bytes_of_string ("unshallow " ++ UnshallowObjectID c ++ LF)))
  else if EndOfShallows c then
    Packet_EncodeToPktLine FlushPacket
  else if nonempty (AckObjectID c) then
    if nonempty (AckDetail c) then
      Packet_EncodeToPktLine
        (BytesPacket (bytes_of_string
           ("ACK " ++ AckObjectID c ++ " " ++ AckDetail c ++ LF)))
    else
      Packet_EncodeToPktLine
        (BytesPacket (bytes_of_string ("ACK " ++ AckObjectID c ++ LF)))
  else if Nak c then
    Packet_EncodeToPktLine (BytesPacket (bytes_of_string ("NAK" ++ LF)))
  else if negb (length (PackStream c) =? 0)%nat then
    Packet_EncodeToPktLine (BytesPacket (PackStream c))
  else if EndOfRequest c then
    Packet_EncodeToPktLine FlushPacket
  else
    Panic "impossible chunk".

End Encoder.

(** ** The decoder *)

Record ProtocolV1UploadPackResponse : Type := {
  scanner : PacketScanner;
  state : protocolV1UploadPackResponseState;
  err : option error;
  curr : option ProtocolV1UploadPackResponseChunk
}.

Definition NewProtocolV1UploadPackResponse (rd : list Packet * option error)
  : ProtocolV1UploadPackResponse :=
  {| scanner := NewPacketScanner rd; state := StBegin; err := None; curr := None |}.

(** [Err] returns the first error that was encountered. *)
Definition Err (r : ProtocolV1UploadPackResponse) : option error := err r.

(** [Chunk] returns the most recent chunk generated by a call to [Scan]. *)
Definition Chunk (r : ProtocolV1UploadPackResponse)
  : option ProtocolV1UploadPackResponseChunk := curr r.

(** The two ways a [Scan] that has read a frame ends: an error is recorded
    ([r.err = ...; return false]) or a chunk is produced
    ([r.state = ...; r.curr = &...; return true]). *)
Definition fail (sc : PacketScanner) (r : ProtocolV1UploadPackResponse) (e : error)
  : result (bool * ProtocolV1UploadPackResponse) :=
  Ok (false, {| scanner := sc; state := state r; err := Some e; curr := curr r |}).

Definition emit (sc : PacketScanner) (r : ProtocolV1UploadPackResponse)
    (st : protocolV1UploadPackResponseState) (c : ProtocolV1UploadPackResponseChunk)
  : result (bool * ProtocolV1UploadPackResponse) :=
  Ok (true, {| scanner := sc; state := st; err := err r; curr := Some c |}).

Section Decoder.

(** The rendering of a packet by [fmt]'s [%#v] verb, used in diagnostics. *)
Variable GoSyntax : Packet -> string.

Definition Outcome : Type := result (bool * ProtocolV1UploadPackResponse).

(** The arms of the [switch r.state] of [Scan].  Each takes the code it
    falls through to as [next]. *)

(** [case Begin, ScanShallows]. *)
Definition caseShallows (sc : PacketScanner) (r : ProtocolV1UploadPackResponse)
    (pkt : Packet) (next : Outcome) : Outcome :=
  match pkt with
  | BytesPacket bp =>
      if bytes_HasPrefix bp (bytes_of_string "shallow ") then
        let ss := strings_SplitN (strings_TrimSuffix (string_of_bytes bp) LF) " " 2 in
        if (length ss <? 2)%nat then
          fail sc r (SyntaxError ("cannot split shallow: " ++ string_of_bytes bp))
        else
          id <- index ss 1 ;;
          emit sc r StScanShallows (shallowChunk id)
      else next
  | _ => next
  end.

(** [case ScanUnshallows]. *)
Definition caseUnshallows (sc : PacketScanner) (r : ProtocolV1UploadPackResponse)
    (pkt : Packet) (next : Outcome) : Outcome :=
  let flush :=
    match pkt with
    | FlushPacket =>
        emit sc r StBeginAcks endOfShallowsChunk
    | _ => next
    end in
  match pkt with
  | BytesPacket bp =>
      if bytes_HasPrefix bp (bytes_of_string "unshallow ") then
        let ss := strings_SplitN (strings_TrimSuffix (string_of_bytes bp) LF) " " 2 in
        if (length ss <? 2)%nat then
          fail sc r (SyntaxError ("cannot split unshallow: " ++ string_of_bytes bp))
        else
          id <- index ss 1 ;;
          emit sc r StScanUnshallows (unshallowChunk id)
      else flush
  | _ => flush
  end.

(** [case BeginAcknowledgements, ScanAcknowledgements]. *)
Definition caseAcknowledgements (sc : PacketScanner) (r : ProtocolV1UploadPackResponse)
    (pkt : Packet) (next : Outcome) : Outcome :=
  let unmatched :=
    if state_eqb (state r) StBegin then
      fail sc r (SyntaxError ("unexpected packet: " ++ GoSyntax pkt))
    else next in
  match pkt with
  | BytesPacket bp =>
      if bytes_HasPrefix bp (bytes_of_string "ACK ") then
        let ss := strings_SplitN (strings_TrimSuffix (string_of_bytes bp) LF) " " 3 in
        if (length ss <? 2)%nat then
          fail sc r (SyntaxError ("cannot split ACK: " ++ string_of_bytes bp))
        else
          detail <- (if (length ss =? 3)%nat then index ss 2 else Ok "") ;;
          id <- index ss 1 ;;
          emit sc r StScanAcks (ackChunk id detail)
      else if bytes_Equal bp (bytes_of_string ("NAK" ++ LF)) then
        emit sc r StScanPacks nakChunk
      else unmatched
  | _ => unmatched
  end.

(** [case ScanPacks]. *)
Definition casePacks (sc : PacketScanner) (r : ProtocolV1UploadPackResponse)
    (pkt : Packet) : Outcome :=
  match pkt with
  | FlushPacket =>
      emit sc r StEnd endOfRequestChunk
  | BytesPacket p =>
      emit sc r StScanPacks (packChunk p)
  | _ => fail sc r (SyntaxError ("unexpected packet: " ++ GoSyntax pkt))
  end.

(** The [switch r.state] itself: the arm the phase selects and the arms it
    falls through to; no arm is selected at the end phase, which leaves the
    switch for the final [panic]. *)
Definition switchState (sc : PacketScanner) (r : ProtocolV1UploadPackResponse)
    (pkt : Packet) : Outcome :=
  match state r with
  | StBegin | StScanShallows =>
      caseShallows sc r pkt
        (caseUnshallows sc r pkt (caseAcknowledgements sc r pkt (casePacks sc r pkt)))
  | StScanUnshallows =>
      caseUnshallows sc r pkt (caseAcknowledgements sc r pkt (casePacks sc r pkt))
  | StBeginAcks | StScanAcks =>
      caseAcknowledgements sc r pkt (casePacks sc r pkt)
  | StScanPacks =>
      casePacks sc r pkt
  | StEnd => Panic "impossible state"
  end.

(** [Scan] advances the decoder to the next packet. *)
Definition Scan (r : ProtocolV1UploadPackResponse) : Outcome :=
  if match err r with Some _ => true | None => false end
     || state_eqb (state r) StEnd
  then Ok (false, r)
  else
    let (more, sc) := PacketScanner_Scan (scanner r) in
    if negb more then
      let e := PacketScanner_Err sc in
      let e := match e with
               | None => if negb (state_eqb (state r) StBeginAcks)
                         then Some (SyntaxError "early EOF") else None
               | Some _ => e
               end in
      Ok (false, {| scanner := sc; state := state r; err := e; curr := curr r |})
    else
      pkt <- PacketScanner_Packet sc ;;
      switchState sc r pkt.

End Decoder.

(** ** Driving the decoder *)

Section Driver.

Variable GoSyntax : Packet -> string.

(** [n] successive calls of [Scan]: what each returned and the decoder it
    left behind. *)
Fixpoint calls (n : nat) (r : ProtocolV1UploadPackResponse)
  : list (bool * ProtocolV1UploadPackResponse) :=
  match n with
  | O => []
  | S n' =>
      match Scan GoSyntax r with
      | Ok (b, r') => (b, r') :: calls n' r'
      | Panic _ => []
      end
  end.

(** The phases a decoder goes through over [n] successive calls. *)
Definition phases (n : nat) (r : ProtocolV1UploadPackResponse)
  : list protocolV1UploadPackResponseState :=
  state r :: map (fun br => state (snd br)) (calls n r).

(** The caller's loop [for r.Scan() { ... r.Chunk() ... }]: the chunks seen
    and the decoder once [Scan] has returned [false]; [None] when [fuel]
    calls were not enough. *)
Fixpoint decode (fuel : nat) (r : ProtocolV1UploadPackResponse)
  : option (list (option ProtocolV1UploadPackResponseChunk)
            * ProtocolV1UploadPackResponse) :=
  match fuel with
  | O => None
  | S fuel' =>
      match Scan GoSyntax r with
      | Ok (true, r') =>
          match decode fuel' r' with
          | Some (cs, rf) => Some (Chunk r' :: cs, rf)
          | None => None
          end
      | Ok (false, r') => Some ([], r')
      | Panic _ => None
      end
  end.

End Driver.

(** ** Populated variants of a chunk *)

Definition b2n (b : bool) : nat := if b then 1 else 0.

(** How many of the seven variants a chunk has populated; [AckDetail]
    qualifies the acknowledgement and is no variant of its own. *)
Definition populated (c : ProtocolV1UploadPackResponseChunk) : nat :=
  b2n (nonempty (ShallowObjectID c))
  + b2n (nonempty (UnshallowObjectID c))
  + b2n (EndOfShallows c)
  + b2n (nonempty (AckObjectID c))
  + b2n (Nak c)
  + b2n (negb (length (PackStream c) =? 0)%nat)
  + b2n (EndOfRequest c).

(** A well-formed event: exactly one variant, and a detail only on an
    acknowledgement. *)
Definition wellformed (c : ProtocolV1UploadPackResponseChunk) : Prop :=
  populated c = 1 /\ (AckObjectID c = "" -> AckDetail c = "").

(** [strings.Contains]. *)
Definition strings_Contains (s substr : string) : bool :=
  match strings_Index s substr with
  | Some _ => true
  | None => false
  end.

(** The phases in which the decoder has a rule for the variant of [c]: the
    case labels of its arm and those of the arms falling through to it. *)
Definition legal_phase (c : ProtocolV1UploadPackResponseChunk)
    (st : protocolV1UploadPackResponseState) : bool :=
  if nonempty (ShallowObjectID c) then
    match st with StBegin | StScanShallows => true | _ => false end
  else if nonempty (UnshallowObjectID c) || EndOfShallows c then
    match st with StBegin | StScanShallows | StScanUnshallows => true | _ => false end
  else if nonempty (AckObjectID c) || Nak c then
    match st with
    | StBegin | StScanShallows | StScanUnshallows | StBeginAcks | StScanAcks => true
    | _ => false
    end
  else if negb (length (PackStream c) =? 0)%nat then
    match st with StBegin | StEnd => false | _ => true end
  else
    match st with StBeginAcks | StScanAcks | StScanPacks => true | _ => false end.

(** A decoder that can read: no error recorded and not at the end. *)
Definition live (r : ProtocolV1UploadPackResponse) : Prop :=
  err r = None /\ state r <> StEnd.

(** ** The phase grammar as a rule table

    The decoder written the other way round: instead of arms that fall
    through, one ordered list of rules (phase set, frame pattern, chunk,
    next phase), the first applicable one deciding.  [Scan] is shown below to
    follow this table. *)

Definition shallow_phase (st : protocolV1UploadPackResponseState) : bool :=
  match st with StBegin | StScanShallows => true | _ => false end.

Definition unshallow_phase (st : protocolV1UploadPackResponseState) : bool :=
  match st with StBegin | StScanShallows | StScanUnshallows => true | _ => false end.

Definition ack_phase (st : protocolV1UploadPackResponseState) : bool :=
  match st with
  | StBegin | StScanShallows | StScanUnshallows | StBeginAcks | StScanAcks => true
  | _ => false
  end.

Definition pack_phase (st : protocolV1UploadPackResponseState) : bool :=
  match st with StBegin | StEnd => false | _ => true end.

Definition is_shallow (bp : bytes) : bool :=
  bytes_HasPrefix bp (bytes_of_string "shallow ").
Definition is_unshallow (bp : bytes) : bool :=
  bytes_HasPrefix bp (bytes_of_string "unshallow ").
Definition is_ack (bp : bytes) : bool :=
  bytes_HasPrefix bp (bytes_of_string "ACK ").
Definition is_nak (bp : bytes) : bool :=
  bytes_Equal bp (bytes_of_string ("NAK" ++ LF)).

(** The text of a payload after its first [n] bytes, without the final
    line feed. *)
Definition lineAfter (n : nat) (bp : bytes) : string :=
  strings_TrimSuffix (string_drop n (string_of_bytes bp)) LF.

(** The acknowledgement read from the text after ["ACK "]: the object id
    runs to the first space, the detail is whatever follows it. *)
Definition ackOf (u : string) : ProtocolV1UploadPackResponseChunk :=
  match strings_Index u " " with
  | None => ackChunk u ""
  | Some m => ackChunk (substring 0 m u) (string_drop (m + 1) u)
  end.

Definition grammar (st : protocolV1UploadPackResponseState) (pkt : Packet)
  : option (protocolV1UploadPackResponseState * ProtocolV1UploadPackResponseChunk) :=
  match pkt with
  | BytesPacket bp =>
      if shallow_phase st && is_shallow bp then
        Some (StScanShallows, shallowChunk (lineAfter 8 bp))
      else if unshallow_phase st && is_unshallow bp then
        Some (StScanUnshallows, unshallowChunk (lineAfter 10 bp))
      else if ack_phase st && is_ack bp then
        Some (StScanAcks, ackOf (lineAfter 4 bp))
      else if ack_phase st && is_nak bp then
        Some (StScanPacks, nakChunk)
      else if pack_phase st then
        Some (StScanPacks, packChunk bp)
      else None
  | FlushPacket =>
      if unshallow_phase st then Some (StBeginAcks, endOfShallowsChunk)
      else if pack_phase st then Some (StEnd, endOfRequestChunk)
      else None
  | OtherPacket _ => None
  end.

(** A frame is recognized in a phase when it matches a pattern legal for
    that phase or for a phase the cascade falls through to. *)
Definition recognized (st : protocolV1UploadPackResponseState) (pkt : Packet) : bool :=
  match pkt with
  | BytesPacket bp =>
      (shallow_phase st && is_shallow bp)
      || (unshallow_phase st && is_unshallow bp)
      || (ack_phase st && (is_ack bp || is_nak bp))
      || pack_phase st
  | FlushPacket => unshallow_phase st || pack_phase st
  | OtherPacket _ => false
  end.

(** A byte payload that, read in phase [st], a rule before the pack rule
    takes for a text line. *)
Definition taken_as_text (st : protocolV1UploadPackResponseState) (bp : bytes) : bool :=
  (shallow_phase st && is_shallow bp)
  || (unshallow_phase st && is_unshallow bp)
  || (ack_phase st && (is_ack bp || is_nak bp)).

(** The lines of the wire grammar, as the specification writes them:
    the prefix, an object id that is not empty, for an acknowledgement
    possibly a space and a detail, and the line feed. *)
Definition wire_shallow (bp : bytes) : bool :=
  is_shallow bp && strings_HasSuffix (string_of_bytes bp) LF
  && nonempty (lineAfter 8 bp).

Definition wire_unshallow (bp : bytes) : bool :=
  is_unshallow bp && strings_HasSuffix (string_of_bytes bp) LF
  && nonempty (lineAfter 10 bp).

Definition wire_ack (bp : bytes) : bool :=
  is_ack bp && strings_HasSuffix (string_of_bytes bp) LF
  && nonempty (AckObjectID (ackOf (lineAfter 4 bp))).

(** A frame matching a pattern of the wire grammar legal in phase [st] or
    in a phase the cascade falls through to: [recognized], with well-formed
    lines in place of the decoder's prefix tests. *)
Definition wire_recognized (st : protocolV1UploadPackResponseState) (pkt : Packet)
  : bool :=
  match pkt with
  | BytesPacket bp =>
      (shallow_phase st && wire_shallow bp)
      || (unshallow_phase st && wire_unshallow bp)
      || (ack_phase st && (wire_ack bp || is_nak bp))
      || pack_phase st
  | FlushPacket => unshallow_phase st || pack_phase st
  | OtherPacket _ => false
  end.

(** ** Kinds of decode errors *)

Definition malformed_line (e : error) : bool :=
  match e with
  | SyntaxError msg => strings_HasPrefix msg "cannot split "
  | ReadError _ => false
  end.

Definition unexpected_packet (e : error) : bool :=
  match e with
  | SyntaxError msg => strings_HasPrefix msg "unexpected packet: "
  | ReadError _ => false
  end.

Definition premature_end (e : error) : bool :=
  match e with
  | SyntaxError msg => String.eqb msg "early EOF"
  | ReadError _ => false
  end.

(** ** The variant an encoder call serializes *)

(** The first populated variant of a chunk, in the order the encoder tests
    the fields. *)
Definition first_variant (c : ProtocolV1UploadPackResponseChunk)
  : ProtocolV1UploadPackResponseChunk :=
  if nonempty (ShallowObjectID c) then shallowChunk (ShallowObjectID c)
  else if nonempty (UnshallowObjectID c) then unshallowChunk (UnshallowObjectID c)
  else if EndOfShallows c then endOfShallowsChunk
  else if nonempty (AckObjectID c) then ackChunk (AckObjectID c) (AckDetail c)
  else if Nak c then nakChunk
  else if negb (length (PackStream c) =? 0)%nat then packChunk (PackStream c)
  else if EndOfRequest c then endOfRequestChunk
  else zeroChunk.

(** ** Concrete inputs *)

(** A byte-payload frame holding the text [s]. *)
Definition line (s : string) : Packet := BytesPacket (bytes_of_string s).

(** A chunk with two variants populated. *)
Definition shallowAndNak : ProtocolV1UploadPackResponseChunk :=
  {| ShallowObjectID := "a"; UnshallowObjectID := ""; EndOfShallows := false;
     AckObjectID := ""; AckDetail := ""; Nak := true; PackStream := [];
     EndOfRequest := false |}.

(** A decoder in phase [st] about to read the frames [frames], the input
    ending with [e]. *)
Definition decoderAt (st : protocolV1UploadPackResponseState) (frames : list Packet)
    (e : option error) : ProtocolV1UploadPackResponse :=
  {| scanner := NewPacketScanner (frames, e); state := st; err := None; curr := None |}.

(** Modelled from the spec: the framing layer's serialization of a packet,
    for evaluating the encoder on concrete input.  A byte payload is
    written behind four hexadecimal digits counting the payload and the
    digits themselves, a flush is [0000]; content the four digits cannot
    count is refused. *)
Definition hexDigit (d : N) : byte :=
  nth (N.to_nat d) (bytes_of_string "0123456789abcdef") "0"%byte.

Definition hex4 (n : N) : bytes :=
  [hexDigit (n / 4096 mod 16); hexDigit (n / 256 mod 16);
   hexDigit (n / 16 mod 16); hexDigit (n mod 16)]%N.

Definition samplePktLine (p : Packet) : result bytes :=
  match p with
  | FlushPacket => Ok (bytes_of_string "0000")
  | BytesPacket bp =>
      if (65535 <? N.of_nat (length bp) + 4)%N then Panic "content too large"
      else Ok (hex4 (N.of_nat (length bp) + 4) ++ bp)%list
  | OtherPacket _ => Panic "packet of another kind"
  end.

(** A packet rendering for evaluating the decoder on concrete input. *)
Definition sampleGoSyntax (p : Packet) : string :=
  match p with
  | FlushPacket => "gitprotocolio.FlushPacket{}"
  | BytesPacket _ => "gitprotocolio.BytesPacket{...}"
  | OtherPacket _ => "gitprotocolio.Packet{...}"
  end.

(** ** Whole responses *)

(** The phase [Scan] moves to when it produces the variant of [c]: the
    [r.state = ...] next to each composite literal. *)
Definition phase_after (c : ProtocolV1UploadPackResponseChunk)
  : protocolV1UploadPackResponseState :=
  if nonempty (ShallowObjectID c) then StScanShallows
  else if nonempty (UnshallowObjectID c) then StScanUnshallows
  else if EndOfShallows c then StBeginAcks
  else if nonempty (AckObjectID c) then StScanAcks
  else if Nak c then StScanPacks
  else if negb (length (PackStream c) =? 0)%nat then StScanPacks
  else StEnd.

(** A sequence of chunks a writer may send from phase [st] on: each one
    well formed, with a space-free acknowledged id, legal in the phase the
    one before it leads to, and, if pack data, not taken there for a text
    line. *)
Fixpoint legal_sequence (st : protocolV1UploadPackResponseState)
    (cs : list ProtocolV1UploadPackResponseChunk) : Prop :=
  match cs with
  | [] => True
  | c :: cs' =>
      wellformed c
      /\ strings_Contains (AckObjectID c) " " = false
      /\ legal_phase c st = true
      /\ taken_as_text st (PackStream c) = false
      /\ legal_sequence (phase_after c) cs'
  end.

(** The last phase in which the decoder still has a rule for the variant
    of [c]: the last case label of its arm or of an arm falling through to
    it. *)
Definition last_phase (c : ProtocolV1UploadPackResponseChunk)
  : protocolV1UploadPackResponseState :=
  if nonempty (ShallowObjectID c) then StScanShallows
  else if nonempty (UnshallowObjectID c) || EndOfShallows c then StScanUnshallows
  else if nonempty (AckObjectID c) || Nak c then StScanAcks
  else StScanPacks.

(** The phase reached from [st] once the chunks [cs] have been read. *)
Fixpoint phase_after_all (st : protocolV1UploadPackResponseState)
    (cs : list ProtocolV1UploadPackResponseChunk)
  : protocolV1UploadPackResponseState :=
  match cs with
  | [] => st
  | c :: cs' => phase_after_all (phase_after c) cs'
  end.

(** ** Byte and string lemmas *)

Lemma string_of_bytes_of_string (s : string) :
  string_of_bytes (bytes_of_string s) = s.
Proof. apply string_of_list_byte_of_string. Qed.

Lemma bytes_of_string_app (a b : string) :
  bytes_of_string (a ++ b) = (bytes_of_string a ++ bytes_of_string b)%list.
Proof.
  unfold bytes_of_string, list_byte_of_string.
  induction a as [|c a IH]; [reflexivity|].
  cbn [append list_ascii_of_string map app]. rewrite IH. reflexivity.
Qed.

Lemma string_of_bytes_app (a b : bytes) :
  string_of_bytes (a ++ b)%list = string_of_bytes a ++ string_of_bytes b.
Proof.
  unfold string_of_bytes, string_of_list_byte.
  induction a as [|c a IH]; [reflexivity|].
  cbn [append string_of_list_ascii map app]. rewrite IH. reflexivity.
Qed.

Lemma bytes_Equal_true (a b : bytes) : bytes_Equal a b = true <-> a = b.
Proof.
  unfold bytes_Equal. destruct (list_eq_dec Byte.byte_eq_dec a b); split; congruence.
Qed.

Lemma bytes_HasPrefix_app (p rest : bytes) : bytes_HasPrefix (p ++ rest)%list p = true.
Proof.
  unfold bytes_HasPrefix. apply andb_true_intro. split.
  - apply Nat.leb_le. rewrite length_app. lia.
  - apply bytes_Equal_true.
    rewrite firstn_app, Nat.sub_diag, firstn_all. cbn. apply app_nil_r.
Qed.

Lemma bytes_HasPrefix_inv (s p : bytes) :
  bytes_HasPrefix s p = true -> s = (p ++ skipn (length p) s)%list.
Proof.
  unfold bytes_HasPrefix. intros H. apply andb_prop in H. destruct H as [_ H].
  apply bytes_Equal_true in H.
  rewrite <- H at 1. symmetry. apply firstn_skipn.
Qed.

(** A payload with prefix [p], read as a string, is [p] followed by the
    rest of the payload. *)
Lemma prefixed_payload (bp : bytes) (p : string) :
  bytes_HasPrefix bp (bytes_of_string p) = true ->
  exists t, bp = bytes_of_string (p ++ t) /\ string_of_bytes bp = p ++ t.
Proof.
  intros H. apply bytes_HasPrefix_inv in H.
  exists (string_of_bytes (skipn (length (bytes_of_string p)) bp)).
  split.
  - rewrite bytes_of_string_app. unfold bytes_of_string at 3, string_of_bytes.
    rewrite list_byte_of_string_of_list_byte. exact H.
  - rewrite H at 1. rewrite string_of_bytes_app, string_of_bytes_of_string. reflexivity.
Qed.

(** [strings.TrimSuffix] of a line feed, one character at a time. *)
Lemma TrimSuffix_cons (c : ascii) (s : string) :
  s <> "" ->
  strings_TrimSuffix (String c s) LF = String c (strings_TrimSuffix s LF).
Proof.
  intros Hs. destruct s as [|d s]; [congruence|].
  unfold strings_TrimSuffix, strings_HasSuffix.
  cbn [String.length LF Nat.leb Nat.sub andb].
  rewrite !Nat.sub_0_r.
  change (substring (S (String.length s)) 1 (String c (String d s)))
    with (substring (String.length s) 1 (String d s)).
  destruct (String.eqb (substring (String.length s) 1 (String d s)) LF);
    reflexivity.
Qed.

Lemma TrimSuffix_LF (s : string) : strings_TrimSuffix (s ++ LF) LF = s.
Proof.
  induction s as [|c s IH]; [reflexivity|].
  cbn [append]. rewrite TrimSuffix_cons, IH; [reflexivity|].
  destruct s; discriminate.
Qed.

(** A line feed is only trimmed past a prefix ending in a space. *)
Lemma TrimSuffix_prefix (p t : string) :
  strings_TrimSuffix ((p ++ " ") ++ t) LF = (p ++ " ") ++ strings_TrimSuffix t LF.
Proof.
  induction p as [|c p IH].
  - cbn [append]. destruct t as [|d t]; [reflexivity|].
    apply TrimSuffix_cons. discriminate.
  - cbn [append]. rewrite TrimSuffix_cons, IH; [reflexivity|].
    destruct p; discriminate.
Qed.

(** Looking for the first space. *)
Lemma HasPrefix_space (c : ascii) (s : string) :
  strings_HasPrefix (String c s) " " = Ascii.eqb c " ".
Proof.
  unfold strings_HasPrefix. cbn [String.length Nat.leb andb substring].
  replace (substring 0 0 s) with "" by (destruct s; reflexivity).
  cbn [String.eqb]. destruct (Ascii.eqb c " "); reflexivity.
Qed.

Lemma Index_space_cons (c : ascii) (s : string) :
  strings_Index (String c s) " "
  = if Ascii.eqb c " " then Some 0 else option_map S (strings_Index s " ").
Proof.
  cbn [strings_Index]. rewrite HasPrefix_space. reflexivity.
Qed.

(** Splitting the trimmed line of each of the three prefixed payloads. *)
Lemma split_shallow (t : string) :
  strings_SplitN (strings_TrimSuffix ("shallow " ++ t) LF) " " 2
  = ["shallow"; strings_TrimSuffix t LF].
Proof.
  change ("shallow " ++ t) with (("shallow" ++ " ") ++ t).
  rewrite TrimSuffix_prefix. unfold strings_SplitN.
  cbn [append genSplit]. rewrite !Index_space_cons. reflexivity.
Qed.

Lemma split_unshallow (t : string) :
  strings_SplitN (strings_TrimSuffix ("unshallow " ++ t) LF) " " 2
  = ["unshallow"; strings_TrimSuffix t LF].
Proof.
  change ("unshallow " ++ t) with (("unshallow" ++ " ") ++ t).
  rewrite TrimSuffix_prefix. unfold strings_SplitN.
  cbn [append genSplit]. rewrite !Index_space_cons. reflexivity.
Qed.

Lemma split_ACK (t : string) :
  strings_SplitN (strings_TrimSuffix ("ACK " ++ t) LF) " " 3
  = "ACK" :: genSplit 1 (strings_TrimSuffix t LF) " ".
Proof.
  change ("ACK " ++ t) with (("ACK" ++ " ") ++ t).
  rewrite TrimSuffix_prefix. unfold strings_SplitN.
  cbn [append genSplit]. rewrite !Index_space_cons. reflexivity.
Qed.

(** Strings without a space. *)
Lemma Index_space_app (id d : string) :
  strings_Contains id " " = false ->
  strings_Index (id ++ " " ++ d) " " = Some (String.length id).
Proof.
  unfold strings_Contains. induction id as [|c id IH]; intros H.
  { cbn [append]. rewrite Index_space_cons. reflexivity. }
  cbn [append]. rewrite Index_space_cons in *.
  destruct (Ascii.eqb c " "); [discriminate|].
  destruct (strings_Index id " ") eqn:E; [discriminate|].
  cbn [append] in IH. rewrite IH; reflexivity.
Qed.

Lemma substring_app (a b : string) : substring 0 (String.length a) (a ++ b) = a.
Proof.
  induction a as [|c a IH]; cbn; [destruct b; reflexivity | now rewrite IH].
Qed.

Lemma string_drop_app (a b : string) : string_drop (String.length a) (a ++ b) = b.
Proof. induction a as [|c a IH]; cbn; [destruct b; reflexivity | exact IH]. Qed.

Lemma string_drop_sep (a b : string) :
  string_drop (String.length a + 1) (a ++ " " ++ b) = b.
Proof.
  induction a as [|c a IH]; cbn; [reflexivity | exact IH].
Qed.

(** ** The decoder follows the rule table *)

Section Decoding.

Variable GoSyntax : Packet -> string.

(** The scanner of [r] once it has delivered [pkt]. *)
Local Abbreviation delivered r pkt rest :=
  {| pending := rest; ending := ending (scanner r); packet := Some pkt |}.

Lemma caseShallows_eq sc r pkt next :
  caseShallows sc r pkt next
  = match pkt with
    | BytesPacket bp =>
        if is_shallow bp
        then emit sc r StScanShallows (shallowChunk (lineAfter 8 bp))
        else next
    | _ => next
    end.
Proof.
  destruct pkt as [|bp|k]; try reflexivity.
  unfold caseShallows, is_shallow, lineAfter.
  destruct (bytes_HasPrefix bp (bytes_of_string "shallow ")) eqn:H; [|reflexivity].
  destruct (prefixed_payload _ _ H) as (t & _ & Ht).
  rewrite Ht, split_shallow. reflexivity.
Qed.

Lemma caseUnshallows_eq sc r pkt next :
  caseUnshallows sc r pkt next
  = match pkt with
    | BytesPacket bp =>
        if is_unshallow bp
        then emit sc r StScanUnshallows (unshallowChunk (lineAfter 10 bp))
        else next
    | FlushPacket => emit sc r StBeginAcks endOfShallowsChunk
    | OtherPacket _ => next
    end.
Proof.
  destruct pkt as [|bp|k]; try reflexivity.
  unfold caseUnshallows, is_unshallow, lineAfter.
  destruct (bytes_HasPrefix bp (bytes_of_string "unshallow ")) eqn:H; [|reflexivity].
  destruct (prefixed_payload _ _ H) as (t & _ & Ht).
  rewrite Ht, split_unshallow. reflexivity.
Qed.

Lemma caseAcknowledgements_eq sc r pkt next :
  caseAcknowledgements GoSyntax sc r pkt next
  = let unmatched :=
      if state_eqb (state r) StBegin
      then fail sc r (SyntaxError ("unexpected packet: " ++ GoSyntax pkt))
      else next in
    match pkt with
    | BytesPacket bp =>
        if is_ack bp then emit sc r StScanAcks (ackOf (lineAfter 4 bp))
        else if is_nak bp then emit sc r StScanPacks nakChunk
        else unmatched
    | _ => unmatched
    end.
Proof.
  destruct pkt as [|bp|k]; try reflexivity.
  unfold caseAcknowledgements, is_ack, is_nak, lineAfter.
  destruct (bytes_HasPrefix bp (bytes_of_string "ACK ")) eqn:H; [|reflexivity].
  destruct (prefixed_payload _ _ H) as (t & _ & Ht).
  rewrite Ht, split_ACK.
  change (string_drop 4 ("ACK " ++ t)) with t.
  unfold ackOf. cbn [genSplit].
  destruct (strings_Index (strings_TrimSuffix t LF) " ") as [m|]; reflexivity.
Qed.

(** The switch of [Scan] is the rule table. *)
Lemma switchState_grammar sc r pkt :
  state r <> StEnd ->
  switchState GoSyntax sc r pkt
  = match grammar (state r) pkt with
    | Some (st, c) => emit sc r st c
    | None => fail sc r (SyntaxError ("unexpected packet: " ++ GoSyntax pkt))
    end.
Proof.
  intros Hend. unfold switchState, grammar.
  rewrite caseShallows_eq, caseUnshallows_eq, caseAcknowledgements_eq.
  unfold casePacks.
  destruct (state r) eqn:Est; try congruence; destruct pkt as [|bp|k];
    cbn [shallow_phase unshallow_phase ack_phase pack_phase state_eqb state_rank
         Nat.eqb andb];
    try reflexivity;
    destruct (is_shallow bp); try reflexivity;
    destruct (is_unshallow bp); try reflexivity;
    destruct (is_ack bp); try reflexivity;
    destruct (is_nak bp); reflexivity.
Qed.

(** The three ways a call of [Scan] goes. *)
Lemma Scan_stopped r :
  err r <> None \/ state r = StEnd -> Scan GoSyntax r = Ok (false, r).
Proof.
  intros [H|H]; unfold Scan.
  - destruct (err r); [reflexivity | congruence].
  - rewrite H. destruct (err r); reflexivity.
Qed.

Lemma Scan_end_of_input r :
  live r -> pending (scanner r) = [] ->
  Scan GoSyntax r
  = Ok (false,
        {| scanner := scanner r; state := state r;
           err := match ending (scanner r) with
                  | Some e => Some e
                  | None => if state_eqb (state r) StBeginAcks then None
                            else Some (SyntaxError "early EOF")
                  end;
           curr := curr r |}).
Proof.
  intros [He Hs] Hp. unfold Scan, PacketScanner_Scan, PacketScanner_Err.
  rewrite He, Hp. cbn [orb negb].
  destruct (state r); try congruence; cbn; rewrite Hp;
    destruct (ending (scanner r)); reflexivity.
Qed.

Lemma Scan_frame r pkt rest :
  live r -> pending (scanner r) = pkt :: rest ->
  Scan GoSyntax r
  = match grammar (state r) pkt with
    | Some (st, c) => emit (delivered r pkt rest) r st c
    | None => fail (delivered r pkt rest) r
                (SyntaxError ("unexpected packet: " ++ GoSyntax pkt))
    end.
Proof.
  intros [He Hs] Hp. unfold Scan, PacketScanner_Scan, PacketScanner_Packet.
  rewrite He, Hp. cbn [orb negb].
  replace (state_eqb (state r) StEnd) with false
    by (destruct (state r); try reflexivity; congruence).
  cbn [negb packet bind]. apply switchState_grammar. exact Hs.
Qed.

End Decoding.

(** ** The encoder *)

(** Case analysis of a chunk down to the emptiness of each field. *)
Ltac chunk_cases c :=
  destruct c as [sh un eos ack det nak ps eor];
  destruct sh as [|? ?]; destruct un as [|? ?]; destruct eos;
  destruct ack as [|? ?]; destruct nak; destruct ps as [|? ?]; destruct eor.

(** [EncodeToPktLine] is the framing layer's serialization of the packet
    it builds, and its last panic when it builds none. *)
Lemma EncodeToPktLine_encodedPacket (enc : Packet -> result bytes)
    (c : ProtocolV1UploadPackResponseChunk) :
  EncodeToPktLine enc c = bind (encodedPacket c) enc.
Proof.
  unfold EncodeToPktLine, encodedPacket.
  repeat match goal with
         | |- context [if ?b then _ else _] => destruct b
         end; reflexivity.
Qed.

Section EncoderClaims.

Variable Packet_EncodeToPktLine : Packet -> result bytes.

(** C4. Encoder mapping: a chunk with exactly one variant populated is
    serialized as the frame of that variant, that is, [EncodeToPktLine]
    returns what the framing layer's [EncodeToPktLine] returns for exactly
    that frame (its bytes, or its abort when the content is too large):
    ["shallow <id>\n"], ["unshallow <id>\n"], a flush for the end of the
    shallow phase, ["ACK <id>\n"] or ["ACK <id> <detail>\n"] according to
    the detail being empty, ["NAK\n"], the pack bytes unmodified, a flush for
    the end of the response.  No state is kept: the result depends on the
    chunk alone. *)
Theorem EncodeToPktLine_mapping (c : ProtocolV1UploadPackResponseChunk) :
  populated c = 1 ->
  (ShallowObjectID c <> "" ->
   EncodeToPktLine Packet_EncodeToPktLine c
   = Packet_EncodeToPktLine (line ("shallow " ++ ShallowObjectID c ++ LF)))
  /\ (UnshallowObjectID c <> "" ->
      EncodeToPktLine Packet_EncodeToPktLine c
      = Packet_EncodeToPktLine (line ("unshallow " ++ UnshallowObjectID c ++ LF)))
  /\ (EndOfShallows c = true ->
      EncodeToPktLine Packet_EncodeToPktLine c = Packet_EncodeToPktLine FlushPacket)
  /\ (AckObjectID c <> "" -> AckDetail c = "" ->
      EncodeToPktLine Packet_EncodeToPktLine c
      = Packet_EncodeToPktLine (line ("ACK " ++ AckObjectID c ++ LF)))
  /\ (AckObjectID c <> "" -> AckDetail c <> "" ->
      EncodeToPktLine Packet_EncodeToPktLine c
      = Packet_EncodeToPktLine
          (line ("ACK " ++ AckObjectID c ++ " " ++ AckDetail c ++ LF)))
  /\ (Nak c = true ->
      EncodeToPktLine Packet_EncodeToPktLine c
      = Packet_EncodeToPktLine (line ("NAK" ++ LF)))
  /\ (PackStream c <> [] ->
      EncodeToPktLine Packet_EncodeToPktLine c
      = Packet_EncodeToPktLine (BytesPacket (PackStream c)))
  /\ (EndOfRequest c = true ->
      EncodeToPktLine Packet_EncodeToPktLine c = Packet_EncodeToPktLine FlushPacket).
Proof.
  intros Hpop.
  chunk_cases c; cbn in Hpop; try discriminate Hpop;
    repeat split; cbn [ShallowObjectID UnshallowObjectID EndOfShallows AckObjectID
                       AckDetail Nak PackStream EndOfRequest];
    intros; try congruence; try reflexivity;
    destruct det; try congruence; reflexivity.
Qed.

(** C8, as the code has it. A chunk with no variant populated makes the
    encoder panic ("impossible chunk").  A chunk with more than one
    populated variant is not refused: the call does what it does for the
    first populated variant alone, in the order ShallowObjectID,
    UnshallowObjectID, EndOfShallows, AckObjectID, Nak, PackStream,
    EndOfRequest, and the other fields are ignored. *)
Theorem EncodeToPktLine_panic (c : ProtocolV1UploadPackResponseChunk) :
  (populated c = 0 ->
   EncodeToPktLine Packet_EncodeToPktLine c = Panic "impossible chunk")
  /\ (1 <= populated c ->
      populated (first_variant c) = 1
      /\ EncodeToPktLine Packet_EncodeToPktLine c
         = EncodeToPktLine Packet_EncodeToPktLine (first_variant c)).
Proof.
  chunk_cases c; split; cbn; intros; try discriminate; try lia;
    try reflexivity; split; try reflexivity;
    destruct det; reflexivity.
Qed.

End EncoderClaims.

Lemma EncodeToPktLine_mapping_witness :
  populated (ackChunk "cccc" "") = 1
  /\ EncodeToPktLine samplePktLine (ackChunk "cccc" "")
     = samplePktLine (line ("ACK cccc" ++ LF))
  /\ samplePktLine (line ("ACK cccc" ++ LF))
     = Ok (bytes_of_string ("000dACK cccc" ++ LF)).
Proof.
  split; [reflexivity|]. split; [|reflexivity].
  apply (EncodeToPktLine_mapping samplePktLine (ackChunk "cccc" ""));
    [reflexivity | discriminate | reflexivity].
Defined.

Lemma EncodeToPktLine_panic_witness :
  1 <= populated shallowAndNak
  /\ EncodeToPktLine samplePktLine shallowAndNak
     = EncodeToPktLine samplePktLine (shallowChunk "a").
Proof.
  split; [cbn; lia|].
  apply (EncodeToPktLine_panic samplePktLine shallowAndNak). cbn. lia.
Defined.

(** C8, as stated, fails: a chunk with two populated variants is encoded,
    not refused. *)
Lemma EncodeToPktLine_two_variants_encoded :
  populated shallowAndNak = 2
  /\ encodedPacket shallowAndNak = Ok (line ("shallow a" ++ LF))
  /\ EncodeToPktLine samplePktLine shallowAndNak
     = Ok (bytes_of_string ("000eshallow a" ++ LF))
  /\ ~ (exists msg, EncodeToPktLine samplePktLine shallowAndNak = Panic msg).
Proof.
  repeat split. intros [msg H]. discriminate H.
Qed.

(** ** Encoding, then decoding *)

Lemma wellformed_inv (c : ProtocolV1UploadPackResponseChunk) :
  wellformed c ->
  (exists id, id <> "" /\ c = shallowChunk id)
  \/ (exists id, id <> "" /\ c = unshallowChunk id)
  \/ c = endOfShallowsChunk
  \/ (exists id detail, id <> "" /\ c = ackChunk id detail)
  \/ c = nakChunk
  \/ (exists p, p <> [] /\ c = packChunk p)
  \/ c = endOfRequestChunk.
Proof.
  intros [Hpop Hdet].
  chunk_cases c; cbn in Hpop; try discriminate Hpop; cbn in Hdet;
    try (rewrite (Hdet eq_refl)).
  all: first
    [ left; eexists; split; [|reflexivity]; discriminate
    | right; left; eexists; split; [|reflexivity]; discriminate
    | right; right; left; reflexivity
    | right; right; right; left; do 2 eexists; split; [|reflexivity]; discriminate
    | right; right; right; right; left; reflexivity
    | right; right; right; right; right; left; eexists; split; [|reflexivity];
      discriminate
    | right; right; right; right; right; right; reflexivity ].
Qed.

(** The text of a line after its prefix. *)
Lemma lineAfter_line (p t : string) :
  lineAfter (String.length p) (bytes_of_string (p ++ t ++ LF)) = t.
Proof.
  unfold lineAfter.
  rewrite string_of_bytes_of_string, string_drop_app. apply TrimSuffix_LF.
Qed.

Lemma ackOf_id (id : string) :
  strings_Contains id " " = false -> ackOf id = ackChunk id "".
Proof.
  unfold strings_Contains, ackOf. destruct (strings_Index id " "); [discriminate|reflexivity].
Qed.

Lemma ackOf_id_detail (id detail : string) :
  strings_Contains id " " = false ->
  ackOf (id ++ " " ++ detail) = ackChunk id detail.
Proof.
  intros H. unfold ackOf. rewrite (Index_space_app id detail H).
  rewrite substring_app, string_drop_sep. reflexivity.
Qed.

(** What the rule table makes of the encoder's frames. *)
Lemma grammar_shallow st id :
  shallow_phase st = true ->
  grammar st (line ("shallow " ++ id ++ LF)) = Some (StScanShallows, shallowChunk id).
Proof.
  intros H. unfold grammar, line. rewrite H.
  change (is_shallow (bytes_of_string ("shallow " ++ id ++ LF))) with true.
  cbn [andb]. pose proof (lineAfter_line "shallow " id) as E.
  change (String.length "shallow ") with 8 in E. rewrite E. reflexivity.
Qed.

Lemma grammar_unshallow st id :
  unshallow_phase st = true ->
  grammar st (line ("unshallow " ++ id ++ LF)) = Some (StScanUnshallows, unshallowChunk id).
Proof.
  intros H. unfold grammar, line. rewrite H.
  change (is_shallow (bytes_of_string ("unshallow " ++ id ++ LF))) with false.
  change (is_unshallow (bytes_of_string ("unshallow " ++ id ++ LF))) with true.
  rewrite andb_false_r. cbn [andb].
  pose proof (lineAfter_line "unshallow " id) as E.
  change (String.length "unshallow ") with 10 in E. rewrite E. reflexivity.
Qed.

Lemma grammar_ack st t :
  ack_phase st = true ->
  grammar st (line ("ACK " ++ t ++ LF)) = Some (StScanAcks, ackOf t).
Proof.
  intros H. unfold grammar, line. rewrite H.
  replace (is_shallow (bytes_of_string ("ACK " ++ t ++ LF))) with false
    by (symmetry; apply andb_false_intro2; reflexivity).
  replace (is_unshallow (bytes_of_string ("ACK " ++ t ++ LF))) with false
    by (symmetry; apply andb_false_intro2; reflexivity).
  change (is_ack (bytes_of_string ("ACK " ++ t ++ LF))) with true.
  rewrite !andb_false_r. cbn [andb].
  pose proof (lineAfter_line "ACK " t) as E.
  change (String.length "ACK ") with 4 in E. rewrite E. reflexivity.
Qed.

Lemma grammar_nak st :
  ack_phase st = true ->
  grammar st (line ("NAK" ++ LF)) = Some (StScanPacks, nakChunk).
Proof. intros H. unfold grammar, line. rewrite H. rewrite !andb_false_r. reflexivity. Qed.

Lemma append_assoc (a b c : string) : (a ++ b) ++ c = a ++ b ++ c.
Proof. induction a as [|x a IH]; cbn; [reflexivity | now rewrite IH]. Qed.

Lemma legal_phase_live c r :
  err r = None -> legal_phase c (state r) = true -> live r.
Proof.
  intros He Hl. split; [exact He|]. intros E. rewrite E in Hl.
  unfold legal_phase in Hl.
  repeat match type of Hl with
         | (if ?b then _ else _) = true => destruct b
         end; discriminate.
Qed.

(** A payload no rule takes for a text line reaches the pack rule. *)
Lemma grammar_pack st bp :
  pack_phase st = true ->
  taken_as_text st bp = false ->
  grammar st (BytesPacket bp) = Some (StScanPacks, packChunk bp).
Proof.
  intros Hpack Htext. unfold taken_as_text in Htext.
  apply orb_false_elim in Htext. destruct Htext as [Htext Hack].
  apply orb_false_elim in Htext. destruct Htext as [Hsh Hun].
  unfold grammar. rewrite Hsh, Hun, Hpack.
  destruct (ack_phase st); cbn [andb] in *; [|reflexivity].
  apply orb_false_elim in Hack. destruct Hack as [-> ->]. reflexivity.
Qed.

(** The rule that reads back the packet built for a chunk, and the phase
    it leads to. *)
Lemma grammar_of_encoded c st :
  wellformed c ->
  strings_Contains (AckObjectID c) " " = false ->
  legal_phase c st = true ->
  taken_as_text st (PackStream c) = false ->
  exists f, encodedPacket c = Ok f /\ grammar st f = Some (phase_after c, c).
Proof.
  intros Hwf Hsp Hlegal Htext.
  destruct (wellformed_inv c Hwf)
    as [(id & Hid & ->) | [(id & Hid & ->) | [-> | [(id & det & Hid & ->)
       | [-> | [(p & Hp & ->) | ->]]]]]].
  - destruct id as [|a id]; [congruence|].
    exists (line ("shallow " ++ String a id ++ LF)). split; [reflexivity|].
    rewrite grammar_shallow; [reflexivity|].
    cbn in Hlegal. destruct st; (reflexivity || discriminate).
  - destruct id as [|a id]; [congruence|].
    exists (line ("unshallow " ++ String a id ++ LF)). split; [reflexivity|].
    rewrite grammar_unshallow; [reflexivity|].
    cbn in Hlegal. destruct st; (reflexivity || discriminate).
  - exists FlushPacket. split; [reflexivity|].
    cbn in Hlegal. destruct st; try discriminate; reflexivity.
  - destruct id as [|a id]; [congruence|]. cbn [AckObjectID ackChunk] in Hsp.
    assert (Hack : ack_phase st = true)
      by (cbn in Hlegal; destruct st; (reflexivity || discriminate)).
    destruct det as [|b det].
    + exists (line ("ACK " ++ String a id ++ LF)). split; [reflexivity|].
      rewrite (grammar_ack _ _ Hack), (ackOf_id _ Hsp). reflexivity.
    + exists (line ("ACK " ++ (String a id ++ " " ++ String b det) ++ LF)).
      split; [cbn [encodedPacket ackChunk ShallowObjectID UnshallowObjectID
                   EndOfShallows AckObjectID AckDetail nonempty String.eqb negb];
              rewrite !append_assoc; reflexivity|].
      rewrite (grammar_ack _ _ Hack), (ackOf_id_detail _ _ Hsp). reflexivity.
  - exists (line ("NAK" ++ LF)). split; [reflexivity|].
    rewrite grammar_nak; [reflexivity|].
    cbn in Hlegal. destruct st; (reflexivity || discriminate).
  - destruct p as [|b p]; [congruence|].
    exists (BytesPacket (b :: p)). split; [reflexivity|].
    cbn [PackStream packChunk] in Htext.
    rewrite (grammar_pack st (b :: p)); [reflexivity | | exact Htext].
    cbn in Hlegal. destruct st; (reflexivity || discriminate).
  - exists FlushPacket. split; [reflexivity|].
    cbn in Hlegal. destruct st; try discriminate; reflexivity.
Qed.

Section RoundTrip.

Variable GoSyntax : Packet -> string.
Variable Packet_EncodeToPktLine : Packet -> result bytes.

(** C1, as the code has it. Round trip: take a well-formed chunk (exactly
    one variant populated, a detail only on an acknowledgement) whose
    acknowledged object id, if any, contains no space, and a decoder in a
    phase that has a rule for the variant; for pack data read before the
    pack phase, where the rules for text lines still come first, let the
    payload be none of their lines.  Then [EncodeToPktLine] hands the
    framing layer a frame which [Scan], reading it in that phase, decodes
    into that same chunk, without error. *)
Theorem EncodeToPktLine_then_Scan
    (c : ProtocolV1UploadPackResponseChunk) (r : ProtocolV1UploadPackResponse)
    (rest : list Packet) :
  wellformed c ->
  strings_Contains (AckObjectID c) " " = false ->
  err r = None ->
  legal_phase c (state r) = true ->
  taken_as_text (state r) (PackStream c) = false ->
  exists f,
    encodedPacket c = Ok f
    /\ EncodeToPktLine Packet_EncodeToPktLine c = Packet_EncodeToPktLine f
    /\ (pending (scanner r) = f :: rest ->
        exists r',
          Scan GoSyntax r = Ok (true, r')
          /\ Chunk r' = Some c /\ Err r' = None /\ pending (scanner r') = rest).
Proof.
  intros Hwf Hsp Herr Hlegal Htext.
  pose proof (legal_phase_live c r Herr Hlegal) as Hlive.
  destruct (grammar_of_encoded c (state r) Hwf Hsp Hlegal Htext) as (f & Hf & Hg).
  exists f. split; [exact Hf|].
  split; [rewrite EncodeToPktLine_encodedPacket, Hf; reflexivity|].
  intros Hpend. rewrite (Scan_frame GoSyntax r f rest Hlive Hpend), Hg.
  eexists. split; [reflexivity|]. cbn. auto.
Qed.

End RoundTrip.

(** Scenario F and the witness of the round trip: [Acknowledge("cccc","")]
    is sent as ["ACK cccc\n"] and read back as itself. *)
Lemma EncodeToPktLine_then_Scan_witness :
  wellformed (ackChunk "cccc" "")
  /\ strings_Contains (AckObjectID (ackChunk "cccc" "")) " " = false
  /\ encodedPacket (ackChunk "cccc" "") = Ok (line ("ACK cccc" ++ LF))
  /\ EncodeToPktLine samplePktLine (ackChunk "cccc" "")
     = Ok (bytes_of_string ("000dACK cccc" ++ LF))
  /\ exists r',
       Scan sampleGoSyntax (decoderAt StBeginAcks [line ("ACK cccc" ++ LF)] None)
       = Ok (true, r')
       /\ Chunk r' = Some (ackChunk "cccc" "").
Proof.
  assert (Hwf : wellformed (ackChunk "cccc" "")) by (split; [reflexivity | discriminate]).
  assert (Hsp : strings_Contains (AckObjectID (ackChunk "cccc" "")) " " = false)
    by reflexivity.
  split; [exact Hwf|]. split; [exact Hsp|]. split; [reflexivity|].
  split; [reflexivity|].
  destruct (EncodeToPktLine_then_Scan sampleGoSyntax samplePktLine (ackChunk "cccc" "")
              (decoderAt StBeginAcks [line ("ACK cccc" ++ LF)] None) []
              Hwf Hsp eq_refl eq_refl eq_refl) as (f & Hf & _ & Hscan).
  injection Hf as <-.
  destruct (Hscan eq_refl) as (r' & Hr' & Hc & _).
  exists r'. split; assumption.
Defined.

(** C1, as stated, fails, in two ways.  An acknowledgement whose object id
    contains a space is well formed, yet it is read back as another chunk,
    the id cut at the space and the remainder taken for the detail.  Pack
    data sent right after the acknowledgements, where it is legal, is read
    back as a NAK when its bytes are those of the NAK line. *)
Lemma EncodeToPktLine_then_Scan_fails :
  (wellformed (ackChunk "a b" "")
   /\ legal_phase (ackChunk "a b" "") StBeginAcks = true
   /\ encodedPacket (ackChunk "a b" "") = Ok (line ("ACK a b" ++ LF))
   /\ EncodeToPktLine samplePktLine (ackChunk "a b" "")
      = Ok (bytes_of_string ("000cACK a b" ++ LF))
   /\ exists r',
        Scan sampleGoSyntax (decoderAt StBeginAcks [line ("ACK a b" ++ LF)] None)
        = Ok (true, r')
        /\ Chunk r' = Some (ackChunk "a" "b")
        /\ Chunk r' <> Some (ackChunk "a b" ""))
  /\ (wellformed (packChunk (bytes_of_string ("NAK" ++ LF)))
      /\ legal_phase (packChunk (bytes_of_string ("NAK" ++ LF))) StScanAcks = true
      /\ encodedPacket (packChunk (bytes_of_string ("NAK" ++ LF)))
         = Ok (line ("NAK" ++ LF))
      /\ EncodeToPktLine samplePktLine (packChunk (bytes_of_string ("NAK" ++ LF)))
         = Ok (bytes_of_string ("0008NAK" ++ LF))
      /\ exists r',
           Scan sampleGoSyntax (decoderAt StScanAcks [line ("NAK" ++ LF)] None)
           = Ok (true, r')
           /\ Chunk r' = Some nakChunk
           /\ Chunk r' <> Some (packChunk (bytes_of_string ("NAK" ++ LF)))).
Proof.
  split.
  - split; [split; [reflexivity | discriminate]|].
    split; [reflexivity|]. split; [reflexivity|]. split; [reflexivity|].
    eexists. split; [vm_compute; reflexivity|]. split; [reflexivity | discriminate].
  - split; [split; [reflexivity | reflexivity]|].
    split; [reflexivity|]. split; [reflexivity|]. split; [reflexivity|].
    eexists. split; [vm_compute; reflexivity|]. split; [reflexivity | discriminate].
Qed.

(** ** Facts of the rule table *)

Lemma grammar_monotone st pkt st' c :
  grammar st pkt = Some (st', c) -> state_rank st <= state_rank st'.
Proof.
  unfold grammar. destruct pkt as [|bp|k]; [| |discriminate].
  - destruct st; cbn; intros H; inversion H; subst; cbn; lia.
  - destruct st; cbn [shallow_phase unshallow_phase ack_phase pack_phase andb];
      destruct (is_shallow bp); destruct (is_unshallow bp);
      destruct (is_ack bp); destruct (is_nak bp);
      intros H; inversion H; subst; cbn; lia.
Qed.

Lemma grammar_recognized st pkt :
  recognized st pkt = true <-> exists st' c, grammar st pkt = Some (st', c).
Proof.
  unfold grammar, recognized. destruct pkt as [|bp|k].
  - destruct st; cbn; split; intros H; try discriminate; try reflexivity;
      try (do 2 eexists; reflexivity); destruct H as (? & ? & H); discriminate.
  - destruct st; cbn [shallow_phase unshallow_phase ack_phase pack_phase andb orb];
      destruct (is_shallow bp); destruct (is_unshallow bp);
      destruct (is_ack bp); destruct (is_nak bp); cbn;
      split; intros H; try discriminate; try reflexivity;
      try (do 2 eexists; reflexivity); destruct H as (? & ? & H); discriminate.
  - split; [discriminate|]. intros (? & ? & H). discriminate.
Qed.

Lemma ackOf_populated u : populated (ackOf u) <= 1.
Proof.
  unfold ackOf. destruct (strings_Index u " ") as [m|]; unfold populated; cbn;
    match goal with |- context [nonempty ?s] => destruct (nonempty s) end; cbn; lia.
Qed.

(** The rule table never populates two variants. *)
Lemma grammar_populated st pkt st' c :
  grammar st pkt = Some (st', c) -> populated c <= 1.
Proof.
  unfold grammar. destruct pkt as [|bp|k]; [| |discriminate].
  - destruct (unshallow_phase st); [|destruct (pack_phase st)];
      intros H; inversion H; subst; cbn; lia.
  - repeat match goal with
           | |- (if ?b then _ else _) = _ -> _ => destruct b
           end; intros H; inversion H; subst;
      try apply ackOf_populated; unfold populated; cbn;
      try match goal with |- context [nonempty ?s] => destruct (nonempty s) end;
      try match goal with |- context [length ?s] => destruct s end;
      cbn; lia.
Qed.

(** ** Behaviour of [Scan] *)

Lemma live_dec r : live r \/ (err r <> None \/ state r = StEnd).
Proof.
  unfold live. destruct (err r); [right; left; discriminate|].
  destruct (state r); try (left; split; [reflexivity | discriminate]).
  right; right; reflexivity.
Qed.

Lemma strings_HasPrefix_app (p x : string) : strings_HasPrefix (p ++ x) p = true.
Proof.
  unfold strings_HasPrefix. rewrite substring_app, String.eqb_refl, andb_true_r.
  apply Nat.leb_le. induction p as [|c p IH]; cbn; lia.
Qed.

Section Behaviour.

Variable GoSyntax : Packet -> string.

(** Every call of [Scan] returns. *)
Lemma Scan_total r : exists b r', Scan GoSyntax r = Ok (b, r').
Proof.
  destruct (live_dec r) as [Hl|Hs].
  - destruct (pending (scanner r)) as [|pkt rest] eqn:Hp.
    + rewrite (Scan_end_of_input GoSyntax r Hl Hp). eauto.
    + rewrite (Scan_frame GoSyntax r pkt rest Hl Hp).
      destruct (grammar (state r) pkt) as [[st c]|]; unfold emit, fail; eauto.
  - rewrite (Scan_stopped GoSyntax r Hs). eauto.
Qed.

(** A call of [Scan] never moves the phase backwards. *)
Lemma Scan_monotone r b r' :
  Scan GoSyntax r = Ok (b, r') -> state_rank (state r) <= state_rank (state r').
Proof.
  destruct (live_dec r) as [Hl|Hs].
  - destruct (pending (scanner r)) as [|pkt rest] eqn:Hp.
    + rewrite (Scan_end_of_input GoSyntax r Hl Hp). intros H. inversion H. cbn. lia.
    + rewrite (Scan_frame GoSyntax r pkt rest Hl Hp).
      destruct (grammar (state r) pkt) as [[st c]|] eqn:Hg; unfold emit, fail;
        intros H; inversion H; cbn; [|lia].
      eapply grammar_monotone; eassumption.
  - rewrite (Scan_stopped GoSyntax r Hs). intros H. inversion H. lia.
Qed.

(** A call that returned [false] left a decoder on which the next call
    changes nothing. *)
Lemma Scan_false_fixpoint r r' :
  Scan GoSyntax r = Ok (false, r') -> Scan GoSyntax r' = Ok (false, r').
Proof.
  destruct (live_dec r) as [Hl|Hs].
  - destruct (pending (scanner r)) as [|pkt rest] eqn:Hp.
    + rewrite (Scan_end_of_input GoSyntax r Hl Hp).
      destruct Hl as [He Hst].
      destruct (ending (scanner r)) as [e|] eqn:Hend.
      * intros H. inversion H. apply Scan_stopped. left. cbn. discriminate.
      * destruct (state_eqb (state r) StBeginAcks) eqn:Hb; intros H; inversion H.
        -- rewrite Scan_end_of_input;
             [| split; [reflexivity | exact Hst] | exact Hp].
           cbn [scanner state err curr]. rewrite Hend, Hb. reflexivity.
        -- apply Scan_stopped. left. cbn. discriminate.
    + rewrite (Scan_frame GoSyntax r pkt rest Hl Hp).
      destruct (grammar (state r) pkt) as [[st c]|]; unfold emit, fail;
        intros H; inversion H.
      apply Scan_stopped. left. cbn. discriminate.
  - rewrite (Scan_stopped GoSyntax r Hs). intros H. inversion H; subst.
    apply Scan_stopped. exact Hs.
Qed.

Lemma calls_length n r : length (calls GoSyntax n r) = n.
Proof.
  revert r. induction n as [|n IH]; intros r; [reflexivity|].
  cbn. destruct (Scan_total r) as (b & r' & H). rewrite H. cbn. now rewrite IH.
Qed.

Lemma phases_sorted n r :
  forall i j a b, i <= j ->
    nth_error (phases GoSyntax n r) i = Some a ->
    nth_error (phases GoSyntax n r) j = Some b ->
    state_rank a <= state_rank b.
Proof.
  revert r. induction n as [|n IH]; intros r i j a b Hij Hi Hj.
  - unfold phases in *. cbn in *.
    destruct i, j; cbn in *; try destruct i; try destruct j; try discriminate.
    inversion Hi; inversion Hj; subst. lia.
  - unfold phases in Hi, Hj. cbn [calls] in Hi, Hj.
    destruct (Scan_total r) as (bb & r' & H). rewrite H in Hi, Hj.
    pose proof (Scan_monotone r bb r' H) as Hstep.
    change (state r :: map (fun br => state (snd br)) ((bb, r') :: calls GoSyntax n r'))
      with (state r :: phases GoSyntax n r') in Hi, Hj.
    destruct j as [|j].
    + assert (i = 0) by lia. subst. cbn in Hi, Hj. inversion Hi; inversion Hj; subst. lia.
    + cbn [nth_error] in Hj. destruct i as [|i].
      * cbn in Hi. inversion Hi; subst.
        assert (H0 : nth_error (phases GoSyntax n r') 0 = Some (state r')) by reflexivity.
        pose proof (IH r' 0 j (state r') b ltac:(lia) H0 Hj). lia.
      * cbn [nth_error] in Hi. eapply (IH r' i j); [lia | eassumption | eassumption].
Qed.

End Behaviour.

Lemma state_rank_inj a b : state_rank a = state_rank b -> a = b.
Proof. destruct a, b; cbn; intros H; try reflexivity; discriminate. Qed.

(** ** Properties of the decoder *)

Section Claims.

Variable GoSyntax : Packet -> string.

(** C6. Phase monotonicity: over any number of successive calls of [Scan],
    on any input, every call returns, the phases the decoder goes through
    never decrease in the order Begin < ScanShallows < ScanUnshallows <
    BeginAcknowledgements < ScanAcknowledgements < ScanPacks < End, and a
    phase seen again later was never left in between. *)
Theorem phase_monotonicity (n : nat) (r : ProtocolV1UploadPackResponse) :
  length (phases GoSyntax n r) = S n
  /\ (forall i j a b, i <= j ->
        nth_error (phases GoSyntax n r) i = Some a ->
        nth_error (phases GoSyntax n r) j = Some b ->
        state_rank a <= state_rank b)
  /\ (forall i j k a b, i <= j -> j <= k ->
        nth_error (phases GoSyntax n r) i = Some a ->
        nth_error (phases GoSyntax n r) j = Some b ->
        nth_error (phases GoSyntax n r) k = Some a ->
        b = a).
Proof.
  split; [|split].
  - unfold phases. cbn [length]. now rewrite length_map, calls_length.
  - apply phases_sorted.
  - intros i j k a b Hij Hjk Hi Hj Hk.
    apply state_rank_inj.
    pose proof (phases_sorted GoSyntax n r i j a b Hij Hi Hj).
    pose proof (phases_sorted GoSyntax n r j k b a Hjk Hj Hk).
    lia.
Qed.

(** C7. Idempotent termination: once [Scan] has returned [false], each of
    any number of further calls returns [false] and leaves the decoder as it
    was: the error reported by [Err] is the same and the scanner holds the
    same frames, none having been read. *)
Theorem Scan_idempotent_termination (r r' : ProtocolV1UploadPackResponse) :
  Scan GoSyntax r = Ok (false, r') ->
  forall n,
    calls GoSyntax n r' = repeat (false, r') n
    /\ Forall (fun br => fst br = false
                         /\ Err (snd br) = Err r'
                         /\ pending (scanner (snd br)) = pending (scanner r'))
         (calls GoSyntax n r').
Proof.
  intros H n.
  assert (Hc : calls GoSyntax n r' = repeat (false, r') n).
  { apply Scan_false_fixpoint in H.
    induction n as [|n IH]; [reflexivity|].
    cbn [calls repeat]. rewrite H, IH. reflexivity. }
  split; [exact Hc|]. rewrite Hc. apply Forall_forall.
  intros br Hin. apply repeat_spec in Hin. subst br. cbn. auto.
Qed.

(** C9, as the code has it. Every frame that passes none of the decoder's
    tests is rejected: when a decoder that can read is delivered a frame
    that, for its phase and the phases the cascade falls through to, is
    neither a payload starting with ["shallow "], ["unshallow "] or
    ["ACK "], nor the payload ["NAK\n"], nor a flush, nor a byte payload
    where the pack rule applies, [Scan] returns [false], records the
    unexpected-packet syntax error for that frame, and produces no chunk.
    A shallow, unshallow or ACK line with its object id but without the
    final line feed is no such frame: it is decoded as the line with the
    line feed is. *)
Theorem unrecognized_frame_rejected
    (r : ProtocolV1UploadPackResponse) (rest : list Packet) :
  live r ->
  (forall pkt,
     pending (scanner r) = pkt :: rest ->
     recognized (state r) pkt = false ->
     exists r',
       Scan GoSyntax r = Ok (false, r')
       /\ Err r' = Some (SyntaxError ("unexpected packet: " ++ GoSyntax pkt))
       /\ unexpected_packet (SyntaxError ("unexpected packet: " ++ GoSyntax pkt)) = true
       /\ Chunk r' = Chunk r
       /\ state r' = state r)
  /\ (forall id,
        id <> "" -> strings_HasSuffix id LF = false ->
        (shallow_phase (state r) = true ->
         pending (scanner r) = line ("shallow " ++ id) :: rest ->
         exists r',
           Scan GoSyntax r = Ok (true, r') /\ Chunk r' = Some (shallowChunk id))
        /\ (unshallow_phase (state r) = true ->
            pending (scanner r) = line ("unshallow " ++ id) :: rest ->
            exists r',
              Scan GoSyntax r = Ok (true, r') /\ Chunk r' = Some (unshallowChunk id))
        /\ (ack_phase (state r) = true ->
            strings_Contains id " " = false ->
            pending (scanner r) = line ("ACK " ++ id) :: rest ->
            exists r',
              Scan GoSyntax r = Ok (true, r') /\ Chunk r' = Some (ackChunk id ""))).
Proof.
  intros Hl. split.
  - intros pkt Hp Hrec. rewrite (Scan_frame GoSyntax r pkt rest Hl Hp).
    destruct (grammar (state r) pkt) as [[st c]|] eqn:Hg.
    + assert (recognized (state r) pkt = true) by (apply grammar_recognized; eauto).
      congruence.
    + eexists. split; [reflexivity|]. cbn. repeat split.
      apply (strings_HasPrefix_app "unexpected packet: ").
  - intros id Hid Hlf.
    assert (Htrim : strings_TrimSuffix id LF = id)
      by (unfold strings_TrimSuffix; rewrite Hlf; reflexivity).
    split; [|split].
    + intros Hph Hp. rewrite (Scan_frame GoSyntax r _ rest Hl Hp).
      unfold grammar, line. rewrite Hph.
      change (is_shallow (bytes_of_string ("shallow " ++ id))) with true.
      cbn [andb]. unfold lineAfter. rewrite string_of_bytes_of_string.
      change (string_drop 8 ("shallow " ++ id)) with id. rewrite Htrim.
      eexists. split; reflexivity.
    + intros Hph Hp. rewrite (Scan_frame GoSyntax r _ rest Hl Hp).
      unfold grammar, line. rewrite Hph.
      change (is_shallow (bytes_of_string ("unshallow " ++ id))) with false.
      change (is_unshallow (bytes_of_string ("unshallow " ++ id))) with true.
      rewrite andb_false_r. cbn [andb]. unfold lineAfter.
      rewrite string_of_bytes_of_string.
      change (string_drop 10 ("unshallow " ++ id)) with id. rewrite Htrim.
      eexists. split; reflexivity.
    + intros Hph Hsp Hp. rewrite (Scan_frame GoSyntax r _ rest Hl Hp).
      unfold grammar, line. rewrite Hph.
      replace (is_shallow (bytes_of_string ("ACK " ++ id))) with false
        by (symmetry; apply andb_false_intro2; reflexivity).
      replace (is_unshallow (bytes_of_string ("ACK " ++ id))) with false
        by (symmetry; apply andb_false_intro2; reflexivity).
      change (is_ack (bytes_of_string ("ACK " ++ id))) with true.
      rewrite !andb_false_r. cbn [andb]. unfold lineAfter.
      rewrite string_of_bytes_of_string.
      change (string_drop 4 ("ACK " ++ id)) with id. rewrite Htrim.
      rewrite (ackOf_id _ Hsp). eexists. split; reflexivity.
Qed.

(** C3. End-of-stream policy: when the input ends without error while the
    decoder can read, [Scan] returns [false] without a chunk, and [Err]
    reports nothing if the phase is BeginAcknowledgements and the syntax
    error "early EOF" in every other phase.  A single flush then the end
    of input decodes to the end-of-shallows chunk alone, without error; an
    input ending in the pack phase, no flush seen, is a premature end. *)
Theorem end_of_stream_policy :
  (forall r, live r ->
     pending (scanner r) = [] -> ending (scanner r) = None ->
     exists r',
       Scan GoSyntax r = Ok (false, r')
       /\ Chunk r' = Chunk r /\ state r' = state r
       /\ (state r = StBeginAcks -> Err r' = None)
       /\ (state r <> StBeginAcks ->
           Err r' = Some (SyntaxError "early EOF")
           /\ premature_end (SyntaxError "early EOF") = true))
  /\ (exists rf,
        decode GoSyntax 2 (NewProtocolV1UploadPackResponse ([FlushPacket], None))
        = Some ([Some endOfShallowsChunk], rf)
        /\ state rf = StBeginAcks /\ Err rf = None)
  /\ (exists rf,
        decode GoSyntax 3
          (NewProtocolV1UploadPackResponse
             ([line ("NAK" ++ LF); line "PACK"], None))
        = Some ([Some nakChunk; Some (packChunk (bytes_of_string "PACK"))], rf)
        /\ state rf = StScanPacks /\ Err rf = Some (SyntaxError "early EOF")).
Proof.
  split; [|split].
  - intros r Hl Hp He. rewrite (Scan_end_of_input GoSyntax r Hl Hp), He.
    eexists. split; [reflexivity|]. cbn. repeat split.
    + intros ->. reflexivity.
    + destruct (state r); try reflexivity; congruence.
  - eexists. split; [reflexivity|]. split; reflexivity.
  - eexists. split; [reflexivity|]. split; reflexivity.
Qed.

End Claims.

Section MalformedLines.

Variable GoSyntax : Packet -> string.

(** Whatever [Scan] produces has at most one variant populated. *)
Lemma Scan_chunk_populated r r' :
  Scan GoSyntax r = Ok (true, r') ->
  exists c, Chunk r' = Some c /\ populated c <= 1.
Proof.
  destruct (live_dec r) as [Hl|Hs].
  - destruct (pending (scanner r)) as [|pkt rest] eqn:Hp.
    + rewrite (Scan_end_of_input GoSyntax r Hl Hp). intros H. inversion H.
    + rewrite (Scan_frame GoSyntax r pkt rest Hl Hp).
      destruct (grammar (state r) pkt) as [[st c]|] eqn:Hg; unfold emit, fail;
        intros H; inversion H.
      exists c. split; [reflexivity|]. eapply grammar_populated; eassumption.
  - rewrite (Scan_stopped GoSyntax r Hs). intros H. inversion H.
Qed.

(** C10. The malformed-line branches are unreachable: a payload with prefix
    ["shallow "], ["unshallow "] or ["ACK "] always splits into at least two
    tokens, so no call of [Scan] that reads a frame records a "cannot
    split" error; a shallow line is accepted whatever follows the prefix, and
    ["shallow \n"] yields a shallow chunk whose object id is empty. *)
Theorem malformed_line_unreachable :
  (forall bp, is_shallow bp = true ->
     2 <= length (strings_SplitN (strings_TrimSuffix (string_of_bytes bp) LF) " " 2))
  /\ (forall bp, is_unshallow bp = true ->
        2 <= length (strings_SplitN (strings_TrimSuffix (string_of_bytes bp) LF) " " 2))
  /\ (forall bp, is_ack bp = true ->
        2 <= length (strings_SplitN (strings_TrimSuffix (string_of_bytes bp) LF) " " 3))
  /\ (forall r pkt rest b r' e,
        err r = None -> pending (scanner r) = pkt :: rest ->
        Scan GoSyntax r = Ok (b, r') -> Err r' = Some e ->
        malformed_line e = false)
  /\ (forall r bp rest,
        live r -> shallow_phase (state r) = true -> is_shallow bp = true ->
        pending (scanner r) = BytesPacket bp :: rest ->
        exists r',
          Scan GoSyntax r = Ok (true, r')
          /\ Chunk r' = Some (shallowChunk (lineAfter 8 bp)))
  /\ (exists r',
        Scan GoSyntax (NewProtocolV1UploadPackResponse ([line ("shallow " ++ LF)], None))
        = Ok (true, r')
        /\ Chunk r' = Some (shallowChunk "")).
Proof.
  repeat apply conj.
  - intros bp H. destruct (prefixed_payload _ _ H) as (t & _ & Ht).
    rewrite Ht, split_shallow. cbn. lia.
  - intros bp H. destruct (prefixed_payload _ _ H) as (t & _ & Ht).
    rewrite Ht, split_unshallow. cbn. lia.
  - intros bp H. destruct (prefixed_payload _ _ H) as (t & _ & Ht).
    rewrite Ht, split_ACK. cbn [genSplit].
    destruct (strings_Index (strings_TrimSuffix t LF) " "); cbn; lia.
  - intros r pkt rest b r' e He Hp HS Herr.
    destruct (live_dec r) as [Hl|Hs].
    + rewrite (Scan_frame GoSyntax r pkt rest Hl Hp) in HS.
      destruct (grammar (state r) pkt) as [[st c]|]; unfold emit, fail in HS;
        inversion HS; subst; cbn in Herr.
      * congruence.
      * inversion Herr. unfold malformed_line, strings_HasPrefix.
        apply andb_false_intro2. reflexivity.
    + rewrite (Scan_stopped GoSyntax r Hs) in HS. inversion HS; subst.
      unfold Err in Herr. congruence.
  - intros r bp rest Hl Hph Hsh Hp.
    rewrite (Scan_frame GoSyntax r _ rest Hl Hp). unfold grammar.
    rewrite Hph, Hsh. cbn [andb]. eexists. split; reflexivity.
  - eexists. split; reflexivity.
Qed.

(** C5, as the code has it. A first frame ["shallow\n"], without the space
    of the prefix, is no shallow line: [Scan] returns [false] at the first
    call, no chunk is produced, and [Err] reports the unexpected-packet
    syntax error, not a malformed line. *)
Theorem shallow_without_id_unexpected (e : option error) :
  exists r',
    Scan GoSyntax (NewProtocolV1UploadPackResponse ([line ("shallow" ++ LF)], e))
    = Ok (false, r')
    /\ decode GoSyntax 1 (NewProtocolV1UploadPackResponse ([line ("shallow" ++ LF)], e))
       = Some ([], r')
    /\ Chunk r' = None
    /\ Err r' = Some (SyntaxError ("unexpected packet: "
                                    ++ GoSyntax (line ("shallow" ++ LF))))
    /\ unexpected_packet
         (SyntaxError ("unexpected packet: " ++ GoSyntax (line ("shallow" ++ LF)))) = true
    /\ malformed_line
         (SyntaxError ("unexpected packet: " ++ GoSyntax (line ("shallow" ++ LF)))) = false.
Proof.
  eexists. split; [reflexivity|]. split; [reflexivity|].
  cbn [Chunk Err curr err malformed_line unexpected_packet].
  split; [reflexivity|]. split; [reflexivity|]. split.
  - apply (strings_HasPrefix_app "unexpected packet: ").
  - unfold strings_HasPrefix. apply andb_false_intro2. reflexivity.
Qed.

(** C2 on the code: the frame ["shallow \n"] makes [Scan] return [true]
    with a chunk that has no variant populated, the very chunk the encoder
    refuses as impossible. *)
Theorem Scan_emits_unpopulated_chunk :
  exists r',
    Scan GoSyntax (NewProtocolV1UploadPackResponse ([line ("shallow " ++ LF)], None))
    = Ok (true, r')
    /\ Chunk r' = Some zeroChunk
    /\ populated zeroChunk = 0
    /\ forall Packet_EncodeToPktLine,
         EncodeToPktLine Packet_EncodeToPktLine zeroChunk = Panic "impossible chunk".
Proof. eexists. repeat split. Qed.

End MalformedLines.

(** C5, as stated, fails: the error recorded for ["shallow\n"] is not of the
    malformed-line kind. *)
Lemma shallow_without_id_not_malformed :
  exists r' e,
    Scan sampleGoSyntax (NewProtocolV1UploadPackResponse ([line ("shallow" ++ LF)], None))
    = Ok (false, r')
    /\ Err r' = Some e
    /\ malformed_line e = false.
Proof. do 2 eexists. split; [reflexivity|]. split; reflexivity. Qed.

(** ** The properties at concrete inputs *)

Lemma malformed_line_unreachable_witness :
  is_shallow (bytes_of_string ("shallow " ++ LF)) = true
  /\ 2 <= length (strings_SplitN
                    (strings_TrimSuffix
                       (string_of_bytes (bytes_of_string ("shallow " ++ LF))) LF)
                    " " 2).
Proof.
  split; [reflexivity|].
  apply (proj1 (malformed_line_unreachable sampleGoSyntax)). reflexivity.
Defined.

Lemma Scan_idempotent_termination_witness :
  Scan sampleGoSyntax (decoderAt StBeginAcks [] None)
  = Ok (false, decoderAt StBeginAcks [] None)
  /\ calls sampleGoSyntax 3 (decoderAt StBeginAcks [] None)
     = repeat (false, decoderAt StBeginAcks [] None) 3.
Proof.
  split; [reflexivity|].
  apply (Scan_idempotent_termination sampleGoSyntax
           (decoderAt StBeginAcks [] None) (decoderAt StBeginAcks [] None) eq_refl 3).
Defined.

Lemma unrecognized_frame_rejected_witness :
  live (decoderAt StScanPacks [OtherPacket 0] None)
  /\ recognized StScanPacks (OtherPacket 0) = false
  /\ exists r',
       Scan sampleGoSyntax (decoderAt StScanPacks [OtherPacket 0] None) = Ok (false, r')
       /\ Err r' = Some (SyntaxError "unexpected packet: gitprotocolio.Packet{...}").
Proof.
  assert (Hl : live (decoderAt StScanPacks [OtherPacket 0] None))
    by (split; [reflexivity | discriminate]).
  split; [exact Hl|]. split; [reflexivity|].
  destruct (proj1 (unrecognized_frame_rejected sampleGoSyntax
                     (decoderAt StScanPacks [OtherPacket 0] None) [] Hl)
              (OtherPacket 0) eq_refl eq_refl)
    as (r' & HS & He & _).
  exists r'. split; assumption.
Defined.

(** C9, as stated, fails: as the first frame, a shallow line without its
    line feed and a shallow line without object id are no lines of the wire
    grammar, and no other pattern is legal there; yet neither is rejected,
    each gives a chunk. *)
Lemma malformed_first_frame_accepted :
  (wire_recognized StBegin (line "shallow abc") = false
   /\ exists r',
        Scan sampleGoSyntax (decoderAt StBegin [line "shallow abc"] None) = Ok (true, r')
        /\ Chunk r' = Some (shallowChunk "abc") /\ Err r' = None)
  /\ (wire_recognized StBegin (line ("shallow " ++ LF)) = false
      /\ exists r',
           Scan sampleGoSyntax (decoderAt StBegin [line ("shallow " ++ LF)] None)
           = Ok (true, r')
           /\ Chunk r' = Some (shallowChunk "") /\ Err r' = None).
Proof.
  split; (split; [reflexivity|]); eexists; (split; [reflexivity|]); split; reflexivity.
Qed.

Lemma end_of_stream_policy_witness :
  live (decoderAt StScanPacks [] None)
  /\ exists r',
       Scan sampleGoSyntax (decoderAt StScanPacks [] None) = Ok (false, r')
       /\ Err r' = Some (SyntaxError "early EOF").
Proof.
  assert (Hl : live (decoderAt StScanPacks [] None))
    by (split; [reflexivity | discriminate]).
  split; [exact Hl|].
  destruct (proj1 (end_of_stream_policy sampleGoSyntax)
              (decoderAt StScanPacks [] None) Hl eq_refl eq_refl)
    as (r' & HS & _ & _ & _ & He).
  exists r'. split; [exact HS|]. apply He. discriminate.
Defined.

(** The phases of a whole response: shallow line, flush, NAK, flush, and one
    call more. *)
Lemma phase_monotonicity_witness :
  phases sampleGoSyntax 5
    (NewProtocolV1UploadPackResponse
       ([line ("shallow aaaa" ++ LF); FlushPacket; line ("NAK" ++ LF); FlushPacket], None))
  = [StBegin; StScanShallows; StBeginAcks; StScanPacks; StEnd; StEnd]
  /\ state_rank StScanShallows <= state_rank StEnd.
Proof.
  split; [reflexivity|].
  apply (proj1 (proj2 (phase_monotonicity sampleGoSyntax 5
           (NewProtocolV1UploadPackResponse
              ([line ("shallow aaaa" ++ LF); FlushPacket; line ("NAK" ++ LF); FlushPacket],
               None)))) 1 4);
    [lia | reflexivity | reflexivity].
Defined.

(** Two whole responses: a shallow line, the flush closing the shallow
    phase, a NAK and the final flush; an acknowledgement with detail, pack
    bytes and the final flush. *)
Example decode_shallow_nak :
  exists rf,
    decode sampleGoSyntax 5
      (NewProtocolV1UploadPackResponse
         ([line ("shallow aaaa" ++ LF); FlushPacket; line ("NAK" ++ LF); FlushPacket],
          None))
    = Some ([Some (shallowChunk "aaaa"); Some endOfShallowsChunk; Some nakChunk;
             Some endOfRequestChunk], rf)
    /\ state rf = StEnd /\ Err rf = None.
Proof. eexists. split; [reflexivity|]. split; reflexivity. Qed.

Example decode_ack_pack :
  exists rf,
    decode sampleGoSyntax 4
      (NewProtocolV1UploadPackResponse
         ([line ("ACK bbbb continue" ++ LF); line "PACK"; FlushPacket], None))
    = Some ([Some (ackChunk "bbbb" "continue");
             Some (packChunk (bytes_of_string "PACK")); Some endOfRequestChunk], rf)
    /\ state rf = StEnd /\ Err rf = None.
Proof. eexists. split; [reflexivity|]. split; reflexivity. Qed.

(** ** Further properties of one call of [Scan] *)

Lemma Index_space_prefix (u : string) (m : nat) :
  strings_Index u " " = Some m ->
  strings_Index (substring 0 m u) " " = None.
Proof.
  revert m. induction u as [|c u IH]; intros m H; [discriminate H|].
  rewrite Index_space_cons in H.
  destruct (Ascii.eqb c " ") eqn:Ec.
  - inversion H; subst. reflexivity.
  - destruct (strings_Index u " ") as [k|] eqn:Ek; [|discriminate H].
    inversion H; subst. cbn [substring].
    rewrite Index_space_cons, Ec, (IH k eq_refl). reflexivity.
Qed.

(** The acknowledgement read from a line: its id holds no space. *)
Lemma ackOf_shape (u : string) :
  exists id detail,
    ackOf u = ackChunk id detail /\ strings_Contains id " " = false.
Proof.
  unfold ackOf, strings_Contains. destruct (strings_Index u " ") as [m|] eqn:E.
  - do 2 eexists. split; [reflexivity|]. now rewrite (Index_space_prefix u m E).
  - do 2 eexists. split; [reflexivity|]. now rewrite E.
Qed.

Lemma grammar_ack_id st pkt st' c :
  grammar st pkt = Some (st', c) -> strings_Contains (AckObjectID c) " " = false.
Proof.
  unfold grammar. destruct pkt as [|bp|k]; [| |discriminate].
  - destruct (unshallow_phase st); [|destruct (pack_phase st)];
      intros H; inversion H; reflexivity.
  - repeat match goal with
           | |- (if ?b then _ else _) = _ -> _ => destruct b
           end; intros H; inversion H; subst; try reflexivity.
    destruct (ackOf_shape (lineAfter 4 bp)) as (id & det & -> & Hid). exact Hid.
Qed.

Lemma grammar_phase_after st pkt st' c :
  grammar st pkt = Some (st', c) -> populated c = 1 -> st' = phase_after c.
Proof.
  unfold grammar. destruct pkt as [|bp|k]; [| |discriminate].
  - destruct (unshallow_phase st); [|destruct (pack_phase st)];
      intros H; inversion H; reflexivity.
  - repeat match goal with
           | |- (if ?b then _ else _) = _ -> _ => destruct b
           end; intros H; inversion H; subst; try reflexivity.
    + unfold populated, phase_after. cbn.
      destruct (nonempty (lineAfter 8 bp)); [reflexivity | discriminate].
    + unfold populated, phase_after. cbn.
      destruct (nonempty (lineAfter 10 bp)); [reflexivity | discriminate].
    + destruct (ackOf_shape (lineAfter 4 bp)) as (id & det & -> & _).
      unfold populated, phase_after. cbn.
      destruct (nonempty id); [reflexivity | discriminate].
    + unfold populated, phase_after. cbn.
      destruct bp; [discriminate | reflexivity].
Qed.

Lemma grammar_last_phase st pkt st' c :
  grammar st pkt = Some (st', c) -> populated c = 1 ->
  state_rank st <= state_rank (last_phase c).
Proof.
  unfold grammar. destruct pkt as [|bp|k]; [| |discriminate].
  - destruct st; cbn; intros H; inversion H; subst; cbn; intros; lia.
  - destruct st; cbn [shallow_phase unshallow_phase ack_phase pack_phase andb];
      destruct (is_shallow bp); destruct (is_unshallow bp);
      destruct (is_ack bp); destruct (is_nak bp);
      intros H; inversion H; subst; clear H; unfold populated, last_phase; cbn;
      try lia;
      try (destruct (nonempty (lineAfter 8 bp)); cbn; intros; (lia || discriminate));
      try (destruct (nonempty (lineAfter 10 bp)); cbn; intros; (lia || discriminate));
      try (destruct (ackOf_shape (lineAfter 4 bp)) as (id & det & -> & _); cbn;
           destruct (nonempty id); cbn; intros; (lia || discriminate)).
Qed.

Section OneCall.

Variable GoSyntax : Packet -> string.

(** X1. A call of [Scan] reads at most one frame, a call that returns
    [true] exactly one, the first pending one; the frames behind it are
    left in the scanner untouched. *)
Theorem Scan_reads_one_frame r b r' :
  Scan GoSyntax r = Ok (b, r') ->
  (pending (scanner r') = pending (scanner r)
   \/ exists pkt, pending (scanner r) = pkt :: pending (scanner r'))
  /\ (b = true -> exists pkt, pending (scanner r) = pkt :: pending (scanner r')).
Proof.
  destruct (live_dec r) as [Hl|Hs].
  - destruct (pending (scanner r)) as [|pkt rest] eqn:Hp.
    + rewrite (Scan_end_of_input GoSyntax r Hl Hp). intros H. inversion H; subst.
      cbn. split; [left; exact Hp | discriminate].
    + rewrite (Scan_frame GoSyntax r pkt rest Hl Hp).
      destruct (grammar (state r) pkt) as [[st c]|]; unfold emit, fail;
        intros H; inversion H; subst; cbn; split; eauto.
  - rewrite (Scan_stopped GoSyntax r Hs). intros H. inversion H; subst.
    split; [left; reflexivity | discriminate].
Qed.

(** X2. [Scan] never panics: neither the final [panic("impossible state")]
    nor an out-of-range [ss[1]] or [ss[2]] is reachable, whatever the decoder
    and its input. *)
Theorem Scan_never_panics r msg : Scan GoSyntax r <> Panic msg.
Proof.
  destruct (Scan_total GoSyntax r) as (b & r' & H). rewrite H. discriminate.
Qed.

(** X3. What a call leaves behind: a call that returns [true] has set a
    chunk and recorded no error; a call that returns [false] leaves the
    phase and the chunk of the previous call as they were, so that [Chunk]
    still answers the last chunk decoded. *)
Theorem Scan_outcome r b r' :
  Scan GoSyntax r = Ok (b, r') ->
  (b = true -> Err r' = None /\ exists c, Chunk r' = Some c)
  /\ (b = false -> Chunk r' = Chunk r /\ state r' = state r).
Proof.
  destruct (live_dec r) as [Hl|Hs].
  - destruct (pending (scanner r)) as [|pkt rest] eqn:Hp.
    + rewrite (Scan_end_of_input GoSyntax r Hl Hp). intros H. inversion H; subst.
      cbn. split; [discriminate | auto].
    + rewrite (Scan_frame GoSyntax r pkt rest Hl Hp).
      destruct (grammar (state r) pkt) as [[st c]|]; unfold emit, fail;
        intros H; inversion H; subst; cbn; split; try discriminate; auto.
      intros _. split; [apply Hl | eauto].
  - rewrite (Scan_stopped GoSyntax r Hs). intros H. inversion H; subst.
    split; [discriminate | auto].
Qed.

(** X4. The errors of the decoder: an error reported after a call that
    started without one is the scanner's own error, unchanged, when the
    input ended with it; "early EOF" when the input ended cleanly in a phase
    other than BeginAcknowledgements; "unexpected packet" when the frame
    read matches no rule; and nothing else. *)
Theorem Scan_errors r b r' e :
  err r = None ->
  Scan GoSyntax r = Ok (b, r') ->
  Err r' = Some e ->
  b = false
  /\ ((pending (scanner r) = [] /\ ending (scanner r) = Some e)
      \/ (pending (scanner r) = [] /\ ending (scanner r) = None
          /\ state r <> StBeginAcks /\ e = SyntaxError "early EOF")
      \/ (exists pkt rest,
            pending (scanner r) = pkt :: rest
            /\ recognized (state r) pkt = false
            /\ e = SyntaxError ("unexpected packet: " ++ GoSyntax pkt))).
Proof.
  intros He HS Herr. unfold Err in Herr.
  destruct (live_dec r) as [Hl|Hs].
  - destruct (pending (scanner r)) as [|pkt rest] eqn:Hp.
    + rewrite (Scan_end_of_input GoSyntax r Hl Hp) in HS. inversion HS; subst.
      cbn in Herr. split; [reflexivity|].
      destruct (ending (scanner r)) as [e0|].
      * left. split; [reflexivity | exact Herr].
      * right; left. destruct (state r); cbn in Herr; try discriminate Herr;
          inversion Herr; repeat split; discriminate.
    + rewrite (Scan_frame GoSyntax r pkt rest Hl Hp) in HS.
      destruct (grammar (state r) pkt) as [[st c]|] eqn:Hg; unfold emit, fail in HS;
        inversion HS; subst; cbn in Herr; [congruence|].
      split; [reflexivity|]. right; right. exists pkt, rest.
      split; [reflexivity|]. split; [|congruence].
      destruct (recognized (state r) pkt) eqn:Hr; [|reflexivity].
      apply grammar_recognized in Hr. destruct Hr as (? & ? & Hr). congruence.
  - rewrite (Scan_stopped GoSyntax r Hs) in HS. inversion HS; subst. congruence.
Qed.

(** X5. The object id of a decoded acknowledgement never holds a space: the
    line is cut at the first space after ["ACK "] and what follows is the
    detail. *)
Theorem Scan_ack_id_without_space r r' c :
  Scan GoSyntax r = Ok (true, r') ->
  Chunk r' = Some c ->
  strings_Contains (AckObjectID c) " " = false.
Proof.
  destruct (live_dec r) as [Hl|Hs].
  - destruct (pending (scanner r)) as [|pkt rest] eqn:Hp.
    + rewrite (Scan_end_of_input GoSyntax r Hl Hp). intros H. inversion H.
    + rewrite (Scan_frame GoSyntax r pkt rest Hl Hp).
      destruct (grammar (state r) pkt) as [[st c0]|] eqn:Hg; unfold emit, fail;
        intros H Hc; inversion H; subst; cbn in Hc; inversion Hc; subst.
      eapply grammar_ack_id; eassumption.
  - rewrite (Scan_stopped GoSyntax r Hs). intros H. inversion H.
Qed.

(** X6. The phase follows from the chunk: after a call that produced a
    chunk with one variant populated, the decoder is in the phase of that
    variant (ScanShallows after a shallow line, ScanUnshallows after an
    unshallow line, BeginAcknowledgements after the first flush,
    ScanAcknowledgements after an ACK, ScanPacks after a NAK or pack bytes,
    End after the last flush). *)
Theorem Scan_phase_after r r' c :
  Scan GoSyntax r = Ok (true, r') ->
  Chunk r' = Some c ->
  populated c = 1 ->
  state r' = phase_after c.
Proof.
  destruct (live_dec r) as [Hl|Hs].
  - destruct (pending (scanner r)) as [|pkt rest] eqn:Hp.
    + rewrite (Scan_end_of_input GoSyntax r Hl Hp). intros H. inversion H.
    + rewrite (Scan_frame GoSyntax r pkt rest Hl Hp).
      destruct (grammar (state r) pkt) as [[st c0]|] eqn:Hg; unfold emit, fail;
        intros H Hc Hpop; inversion H; subst; cbn in Hc; inversion Hc; subst.
      cbn. eapply grammar_phase_after; eassumption.
  - rewrite (Scan_stopped GoSyntax r Hs). intros H. inversion H.
Qed.

End OneCall.

(** ** Encoding and decoding whole responses *)

(** A chunk the rule table produced with one variant populated is
    serialized as a frame the same rule reads back into the same chunk. *)
Lemma grammar_reencode st pkt st' c :
  grammar st pkt = Some (st', c) ->
  populated c = 1 ->
  exists f, encodedPacket c = Ok f /\ grammar st f = Some (st', c).
Proof.
  unfold grammar at 1. destruct pkt as [|bp|k]; [| |discriminate].
  - destruct (unshallow_phase st) eqn:E1; [|destruct (pack_phase st) eqn:E2];
      intros H _; inversion H; subst; exists FlushPacket;
      (split; [reflexivity|]); unfold grammar; rewrite ?E1, ?E2; reflexivity.
  - destruct (shallow_phase st && is_shallow bp) eqn:E1.
    { intros H Hpop. inversion H; subst. apply andb_prop in E1. destruct E1 as [E1 _].
      destruct (lineAfter 8 bp) as [|a id]; [discriminate Hpop|].
      exists (line ("shallow " ++ String a id ++ LF)). split; [reflexivity|].
      apply grammar_shallow. exact E1. }
    destruct (unshallow_phase st && is_unshallow bp) eqn:E2.
    { intros H Hpop. inversion H; subst. apply andb_prop in E2. destruct E2 as [E2 _].
      destruct (lineAfter 10 bp) as [|a id]; [discriminate Hpop|].
      exists (line ("unshallow " ++ String a id ++ LF)). split; [reflexivity|].
      apply grammar_unshallow. exact E2. }
    destruct (ack_phase st && is_ack bp) eqn:E3.
    { intros H Hpop. inversion H; subst. apply andb_prop in E3. destruct E3 as [E3 _].
      destruct (ackOf_shape (lineAfter 4 bp)) as (id & det & Hshape & Hid).
      rewrite Hshape in *.
      destruct id as [|a id]; [discriminate Hpop|].
      destruct det as [|b det].
      - exists (line ("ACK " ++ String a id ++ LF)). split; [reflexivity|].
        rewrite (grammar_ack _ _ E3), (ackOf_id _ Hid). reflexivity.
      - exists (line ("ACK " ++ (String a id ++ " " ++ String b det) ++ LF)).
        split; [cbn [encodedPacket ackChunk ShallowObjectID UnshallowObjectID
                     EndOfShallows AckObjectID AckDetail nonempty String.eqb negb];
                rewrite !append_assoc; reflexivity|].
        rewrite (grammar_ack _ _ E3), (ackOf_id_detail _ _ Hid). reflexivity. }
    destruct (ack_phase st && is_nak bp) eqn:E4.
    { intros H _. inversion H; subst. apply andb_prop in E4. destruct E4 as [E4 _].
      exists (line ("NAK" ++ LF)). split; [reflexivity|].
      apply grammar_nak. exact E4. }
    destruct (pack_phase st) eqn:E5; [|discriminate].
    intros H Hpop. inversion H; subst.
    destruct bp as [|b bp]; [discriminate Hpop|].
    exists (BytesPacket (b :: bp)). split; [reflexivity|].
    unfold grammar. rewrite E1, E2, E3, E4, E5. reflexivity.
Qed.

(** A call that returned [true] started on a decoder that could read and
    took the first pending frame through the rule table. *)
Lemma Scan_true_inv (GoSyntax : Packet -> string) r r' :
  Scan GoSyntax r = Ok (true, r') ->
  live r
  /\ exists pkt c,
       pending (scanner r) = pkt :: pending (scanner r')
       /\ grammar (state r) pkt = Some (state r', c)
       /\ Chunk r' = Some c
       /\ err r' = None
       /\ ending (scanner r') = ending (scanner r).
Proof.
  destruct (live_dec r) as [Hl|Hs].
  - destruct (pending (scanner r)) as [|pkt rest] eqn:Hp.
    + rewrite (Scan_end_of_input GoSyntax r Hl Hp). intros H. inversion H.
    + rewrite (Scan_frame GoSyntax r pkt rest Hl Hp).
      destruct (grammar (state r) pkt) as [[st c]|] eqn:Hg; unfold emit, fail;
        intros H; inversion H; subst.
      split; [exact Hl|]. exists pkt, c. cbn.
      split; [reflexivity|]. split; [exact Hg|]. split; [reflexivity|].
      split; [apply Hl | reflexivity].
  - rewrite (Scan_stopped GoSyntax r Hs). intros H. inversion H.
Qed.

Section WholeResponses.

Variable GoSyntax : Packet -> string.
Variable Packet_EncodeToPktLine : Packet -> result bytes.

(** X7. Decoding, encoding, decoding again: for a chunk [Scan] produced
    with one variant populated, [EncodeToPktLine] does not reach its own
    panic but hands the framing layer a frame, and that frame, read in the
    phase the original frame was read in, gives the same chunk and the same
    next phase. *)
Theorem Scan_then_EncodeToPktLine r r' c :
  Scan GoSyntax r = Ok (true, r') ->
  Chunk r' = Some c ->
  populated c = 1 ->
  exists f,
    encodedPacket c = Ok f
    /\ EncodeToPktLine Packet_EncodeToPktLine c = Packet_EncodeToPktLine f
    /\ forall r2 rest2,
         live r2 -> state r2 = state r -> pending (scanner r2) = f :: rest2 ->
         exists r2',
           Scan GoSyntax r2 = Ok (true, r2')
           /\ Chunk r2' = Some c /\ state r2' = state r'.
Proof.
  intros HS Hc Hpop.
  destruct (Scan_true_inv GoSyntax r r' HS) as (_ & pkt & c0 & _ & Hg & Hc0 & _).
  assert (c0 = c) by congruence. subst c0.
  destruct (grammar_reencode _ _ _ _ Hg Hpop) as (f & Hf & Hgf).
  exists f. split; [exact Hf|].
  split; [rewrite EncodeToPktLine_encodedPacket, Hf; reflexivity|].
  intros r2 rest2 Hl2 Hst Hp2.
  rewrite (Scan_frame GoSyntax r2 f rest2 Hl2 Hp2), Hst, Hgf.
  eexists. split; [reflexivity|]. split; reflexivity.
Qed.

(** X8. A whole response round trip: for a legal sequence of chunks, the
    frames [EncodeToPktLine] hands the framing layer, chunk after chunk, are
    decoded by the caller's loop over [Scan] into the same chunks, in the
    same order, every frame being read; the decoder ends in the phase of the
    last chunk, without error if that is End, or BeginAcknowledgements with
    the input cleanly ended. *)
Theorem encode_all_then_decode cs :
  forall r,
    err r = None ->
    legal_sequence (state r) cs ->
    exists frames,
      Forall2 (fun c f =>
                 encodedPacket c = Ok f
                 /\ EncodeToPktLine Packet_EncodeToPktLine c = Packet_EncodeToPktLine f)
        cs frames
      /\ (pending (scanner r) = frames ->
          exists rf,
            decode GoSyntax (S (length cs)) r = Some (map Some cs, rf)
            /\ state rf = phase_after_all (state r) cs
            /\ pending (scanner rf) = []
            /\ (state rf = StEnd
                \/ (state rf = StBeginAcks /\ ending (scanner r) = None) ->
                Err rf = None)).
Proof.
  induction cs as [|c cs IH]; intros r He Hleg.
  - exists []. split; [constructor|]. intros Hp.
    cbn [length decode map phase_after_all].
    destruct (live_dec r) as [Hl|[Hs|Hs]]; [| congruence |].
    + rewrite (Scan_end_of_input GoSyntax r Hl Hp).
      eexists. split; [reflexivity|]. cbn. split; [reflexivity|]. split; [exact Hp|].
      intros [Hend | [Hb Hen]]; [destruct Hl; congruence|].
      rewrite Hen, Hb. reflexivity.
    + rewrite (Scan_stopped GoSyntax r (or_intror Hs)).
      eexists. split; [reflexivity|]. split; [reflexivity|]. split; [exact Hp|].
      intros _. exact He.
  - destruct Hleg as (Hwf & Hsp & Hph & Htext & Hrest).
    destruct (grammar_of_encoded c (state r) Hwf Hsp Hph Htext) as (f & Hf & Hg).
    pose proof (legal_phase_live c r He Hph) as Hl.
    set (r1 := {| scanner := {| pending := match pending (scanner r) with
                                           | [] => [] | _ :: t => t end;
                                ending := ending (scanner r);
                                packet := Some f |};
                  state := phase_after c; err := err r; curr := Some c |}).
    destruct (IH r1 He Hrest) as (fs & Hfs & Hrun).
    exists (f :: fs).
    split; [constructor; [split; [exact Hf|] | exact Hfs];
            rewrite EncodeToPktLine_encodedPacket, Hf; reflexivity|].
    intros Hp. cbn [length map phase_after_all].
    change (decode GoSyntax (S (S (length cs))) r)
      with (match Scan GoSyntax r with
            | Ok (true, r') =>
                match decode GoSyntax (S (length cs)) r' with
                | Some (cs0, rf) => Some (Chunk r' :: cs0, rf)
                | None => None
                end
            | Ok (false, r') => Some ([], r')
            | Panic _ => None
            end).
    rewrite (Scan_frame GoSyntax r f fs Hl Hp), Hg. unfold emit.
    assert (Hr1 : r1 = {| scanner := {| pending := fs; ending := ending (scanner r);
                                        packet := Some f |};
                          state := phase_after c; err := err r; curr := Some c |})
      by (unfold r1; rewrite Hp; reflexivity).
    rewrite <- Hr1.
    destruct (Hrun ltac:(rewrite Hr1; reflexivity)) as (rf & Hdec & Hst & Hpend & Herr).
    rewrite Hdec. exists rf. split; [rewrite Hr1; reflexivity|].
    split; [exact Hst|]. split; [exact Hpend|]. exact Herr.
Qed.

End WholeResponses.

Section Loops.

Variable GoSyntax : Packet -> string.

(** X9. Pack data is opaque: once in the pack phase, any byte payloads,
    whatever they hold (also the text of a shallow, ACK or NAK line, also
    nothing), are handed out unchanged as pack chunks, one per frame, until
    the flush that ends the response; the frames behind that flush are not
    read. *)
Theorem pack_phase_passthrough (bps : list bytes) :
  forall r rest,
    err r = None ->
    state r = StScanPacks ->
    pending (scanner r) = (map BytesPacket bps ++ FlushPacket :: rest)%list ->
    exists rf,
      decode GoSyntax (S (S (length bps))) r
      = Some ((map (fun p => Some (packChunk p)) bps ++ [Some endOfRequestChunk])%list,
              rf)
      /\ state rf = StEnd /\ Err rf = None /\ pending (scanner rf) = rest.
Proof.
  induction bps as [|bp bps IH]; intros r rest He Hst Hp.
  - cbn [map app length] in *.
    assert (Hl : live r) by (split; [exact He | rewrite Hst; discriminate]).
    cbn [decode]. rewrite (Scan_frame GoSyntax r _ rest Hl Hp), Hst.
    cbn [grammar unshallow_phase pack_phase emit].
    rewrite Scan_stopped by (right; reflexivity).
    eexists. split; [reflexivity|]. cbn. auto.
  - cbn [map app length] in *.
    assert (Hl : live r) by (split; [exact He | rewrite Hst; discriminate]).
    change (decode GoSyntax (S (S (S (length bps)))) r)
      with (match Scan GoSyntax r with
            | Ok (true, r') =>
                match decode GoSyntax (S (S (length bps))) r' with
                | Some (cs0, rf) => Some (Chunk r' :: cs0, rf)
                | None => None
                end
            | Ok (false, r') => Some ([], r')
            | Panic _ => None
            end).
    rewrite (Scan_frame GoSyntax r _ _ Hl Hp), Hst.
    cbn [grammar shallow_phase unshallow_phase ack_phase pack_phase andb emit].
    edestruct (IH {| scanner := {| pending := (map BytesPacket bps
                                               ++ FlushPacket :: rest)%list;
                                   ending := ending (scanner r);
                                   packet := Some (BytesPacket bp) |};
                     state := StScanPacks; err := err r;
                     curr := Some (packChunk bp) |} rest He eq_refl eq_refl)
      as (rf & Hdec & Hend & Herr & Hpend).
    rewrite Hdec. exists rf. cbn. auto.
Qed.

(** X10. The caller's loop ends: on a decoder with [n] frames pending at
    most, [Scan] returns [false] within [n + 1] calls, having produced at
    most one chunk per frame; a further call changes nothing. *)
Theorem decode_terminates (n : nat) :
  forall r,
    length (pending (scanner r)) <= n ->
    exists cs rf,
      decode GoSyntax (S n) r = Some (cs, rf)
      /\ length cs <= length (pending (scanner r))
      /\ Scan GoSyntax rf = Ok (false, rf).
Proof.
  induction n as [|n IH]; intros r Hlen.
  - cbn [decode]. destruct (Scan_total GoSyntax r) as ([|] & r' & HS); rewrite HS.
    + destruct (Scan_true_inv GoSyntax r r' HS) as (_ & pkt & c & Hp & _).
      rewrite Hp in Hlen. cbn in Hlen. lia.
    + exists [], r'. split; [reflexivity|]. split; [cbn; lia|].
      eapply Scan_false_fixpoint; eassumption.
  - change (decode GoSyntax (S (S n)) r)
      with (match Scan GoSyntax r with
            | Ok (true, r') =>
                match decode GoSyntax (S n) r' with
                | Some (cs0, rf) => Some (Chunk r' :: cs0, rf)
                | None => None
                end
            | Ok (false, r') => Some ([], r')
            | Panic _ => None
            end).
    destruct (Scan_total GoSyntax r) as ([|] & r' & HS); rewrite HS.
    + destruct (Scan_true_inv GoSyntax r r' HS) as (_ & pkt & c & Hp & _).
      rewrite Hp in Hlen |- *. cbn [length] in Hlen |- *.
      destruct (IH r' ltac:(lia)) as (cs & rf & Hdec & Hcs & Hfix).
      rewrite Hdec. exists (Chunk r' :: cs), rf.
      split; [reflexivity|]. split; [cbn; lia | exact Hfix].
    + exists [], r'. split; [reflexivity|]. split; [cbn; lia|].
      eapply Scan_false_fixpoint; eassumption.
Qed.

(** The chunks a loop produced belong to variants the decoder still had a
    rule for in the phase the loop started in. *)
Lemma decode_chunks_later fuel :
  forall r cs rf,
    decode GoSyntax fuel r = Some (cs, rf) ->
    forall c, In (Some c) cs -> populated c = 1 ->
      state_rank (state r) <= state_rank (last_phase c).
Proof.
  induction fuel as [|fuel IH]; intros r cs rf Hdec c Hin Hpop; [discriminate Hdec|].
  cbn [decode] in Hdec.
  destruct (Scan GoSyntax r) as [[[|] r']|] eqn:HS; try discriminate Hdec.
  - destruct (decode GoSyntax fuel r') as [[cs' rf']|] eqn:Hd; [|discriminate Hdec].
    inversion Hdec; subst.
    destruct Hin as [Hhd|Htl].
    + destruct (Scan_true_inv GoSyntax r r' HS) as (_ & pkt & c0 & _ & Hg & Hc0 & _).
      assert (c0 = c) by congruence. subst c0.
      eapply grammar_last_phase; eassumption.
    + pose proof (Scan_monotone GoSyntax r true r' HS) as Hmono.
      pose proof (IH r' cs' rf Hd c Htl Hpop). lia.
  - inversion Hdec; subst. destruct Hin.
Qed.

(** A loop started at the end of the response produces nothing. *)
Lemma decode_at_end fuel r cs rf :
  state r = StEnd -> decode GoSyntax fuel r = Some (cs, rf) -> cs = [].
Proof.
  intros Hend Hdec. destruct fuel as [|fuel]; [discriminate Hdec|].
  cbn [decode] in Hdec. rewrite (Scan_stopped GoSyntax r (or_intror Hend)) in Hdec.
  inversion Hdec. reflexivity.
Qed.

(** X11. The chunks come in the order of the grammar.  In what the caller's
    loop produces, a chunk with one variant populated that comes after
    another belongs to a variant the decoder still has a rule for in the
    phase that other chunk led to: the phase after the earlier chunk is not
    beyond the last phase of the later one.  So nothing but pack data and
    the end of the response follows a NAK or pack data, and the end of the
    response is the last chunk of all. *)
Theorem decode_chunks_ordered fuel :
  forall r cs rf,
    decode GoSyntax fuel r = Some (cs, rf) ->
    (forall i j ci cj, i < j ->
       nth_error cs i = Some (Some ci) -> nth_error cs j = Some (Some cj) ->
       populated ci = 1 -> populated cj = 1 ->
       state_rank (phase_after ci) <= state_rank (last_phase cj)
       /\ (phase_after ci = StScanPacks ->
           ShallowObjectID cj = "" /\ UnshallowObjectID cj = ""
           /\ EndOfShallows cj = false /\ AckObjectID cj = "" /\ Nak cj = false
           /\ (PackStream cj <> [] \/ EndOfRequest cj = true)))
    /\ (forall i ci,
          nth_error cs i = Some (Some ci) -> populated ci = 1 ->
          phase_after ci = StEnd -> length cs = S i).
Proof.
  induction fuel as [|fuel IH]; intros r cs rf Hdec; [discriminate Hdec|].
  cbn [decode] in Hdec.
  destruct (Scan GoSyntax r) as [[[|] r']|] eqn:HS; try discriminate Hdec.
  - destruct (decode GoSyntax fuel r') as [[cs' rf']|] eqn:Hd; [|discriminate Hdec].
    inversion Hdec; subst. destruct (IH r' cs' rf Hd) as [IHord IHend].
    destruct (Scan_true_inv GoSyntax r r' HS) as (_ & pkt & c0 & _ & Hg & Hc0 & _).
    split.
    + intros i j ci cj Hij Hi Hj Hpi Hpj.
      destruct j as [|j]; [lia|]. cbn [nth_error] in Hj.
      destruct i as [|i].
      * cbn in Hi. assert (c0 = ci) by congruence. subst c0.
        assert (Hle : state_rank (phase_after ci) <= state_rank (last_phase cj)).
        { rewrite <- (grammar_phase_after _ _ _ _ Hg Hpi).
          eapply decode_chunks_later; [exact Hd | | exact Hpj].
          eapply nth_error_In. exact Hj. }
        split; [exact Hle|]. intros Hpk. rewrite Hpk in Hle. clear - Hle Hpj.
        chunk_cases cj; cbn in Hpj; try discriminate Hpj; cbn in Hle; try lia;
          cbn; repeat split; auto; left; discriminate.
      * cbn [nth_error] in Hi.
        apply (IHord i j ci cj); [lia | assumption..].
    + intros i ci Hi Hpi Hend. destruct i as [|i].
      * cbn in Hi. assert (c0 = ci) by congruence. subst c0.
        rewrite <- (grammar_phase_after _ _ _ _ Hg Hpi) in Hend.
        rewrite (decode_at_end fuel r' cs' rf Hend Hd). reflexivity.
      * cbn [nth_error] in Hi. cbn [length]. f_equal. eapply IHend; eassumption.
  - inversion Hdec; subst. split.
    + intros i j ci cj _ Hi. destruct i; discriminate Hi.
    + intros i ci Hi. destruct i; discriminate Hi.
Qed.

End Loops.

Lemma encodedPacket_frame (c : ProtocolV1UploadPackResponseChunk) (f : Packet) :
  encodedPacket c = Ok f ->
  f = FlushPacket \/ exists b bp, f = BytesPacket (b :: bp).
Proof.
  chunk_cases c; cbn; intros H; inversion H; subst; auto;
    try (right; do 2 eexists; reflexivity);
    destruct det; inversion H; right; do 2 eexists; reflexivity.
Qed.

(** X12. What the encoder writes: whenever [EncodeToPktLine] returns, the
    bytes are the framing layer's serialization of a flush or of a byte
    payload that is not empty, never of another kind of packet, whatever the
    chunk. *)
Theorem EncodeToPktLine_frame (Packet_EncodeToPktLine : Packet -> result bytes)
    (c : ProtocolV1UploadPackResponseChunk) (wire : bytes) :
  EncodeToPktLine Packet_EncodeToPktLine c = Ok wire ->
  exists f,
    encodedPacket c = Ok f
    /\ Packet_EncodeToPktLine f = Ok wire
    /\ (f = FlushPacket \/ exists b bp, f = BytesPacket (b :: bp)).
Proof.
  rewrite EncodeToPktLine_encodedPacket.
  destruct (encodedPacket c) as [f|msg] eqn:Hf; cbn [bind]; [|discriminate].
  intros H. exists f. split; [reflexivity|]. split; [exact H|].
  eapply encodedPacket_frame. exact Hf.
Qed.

(** ** The further properties at concrete inputs *)

Lemma Scan_reads_one_frame_witness :
  exists r',
    Scan sampleGoSyntax (decoderAt StBegin [FlushPacket; line ("NAK" ++ LF)] None)
    = Ok (true, r')
    /\ exists pkt,
         pending (scanner (decoderAt StBegin [FlushPacket; line ("NAK" ++ LF)] None))
         = pkt :: pending (scanner r').
Proof.
  eexists. split; [reflexivity|].
  apply (proj2 (Scan_reads_one_frame sampleGoSyntax
                  (decoderAt StBegin [FlushPacket; line ("NAK" ++ LF)] None)
                  true _ eq_refl)).
  reflexivity.
Defined.

Lemma Scan_outcome_witness :
  exists r',
    Scan sampleGoSyntax (decoderAt StScanAcks [OtherPacket 7] None) = Ok (false, r')
    /\ Chunk r' = Chunk (decoderAt StScanAcks [OtherPacket 7] None)
    /\ state r' = StScanAcks.
Proof.
  eexists. split; [reflexivity|].
  apply (proj2 (Scan_outcome sampleGoSyntax
                  (decoderAt StScanAcks [OtherPacket 7] None) false _ eq_refl)).
  reflexivity.
Defined.

Lemma Scan_errors_witness :
  err (decoderAt StBeginAcks [] (Some (ReadError "connection reset"))) = None
  /\ exists r',
       Scan sampleGoSyntax (decoderAt StBeginAcks [] (Some (ReadError "connection reset")))
       = Ok (false, r')
       /\ Err r' = Some (ReadError "connection reset")
       /\ ((pending (scanner (decoderAt StBeginAcks []
                                (Some (ReadError "connection reset")))) = []
            /\ ending (scanner (decoderAt StBeginAcks []
                                  (Some (ReadError "connection reset"))))
               = Some (ReadError "connection reset"))
           \/ (pending (scanner (decoderAt StBeginAcks []
                                   (Some (ReadError "connection reset")))) = []
               /\ ending (scanner (decoderAt StBeginAcks []
                                     (Some (ReadError "connection reset")))) = None
               /\ StBeginAcks <> StBeginAcks
               /\ ReadError "connection reset" = SyntaxError "early EOF")
           \/ (exists pkt rest,
                 pending (scanner (decoderAt StBeginAcks []
                                     (Some (ReadError "connection reset"))))
                 = pkt :: rest
                 /\ recognized StBeginAcks pkt = false
                 /\ ReadError "connection reset"
                    = SyntaxError ("unexpected packet: " ++ sampleGoSyntax pkt))).
Proof.
  split; [reflexivity|]. eexists. split; [reflexivity|]. split; [reflexivity|].
  apply (proj2 (Scan_errors sampleGoSyntax
                  (decoderAt StBeginAcks [] (Some (ReadError "connection reset")))
                  false _ (ReadError "connection reset") eq_refl eq_refl eq_refl)).
Defined.

Lemma Scan_ack_id_without_space_witness :
  exists r',
    Scan sampleGoSyntax (decoderAt StBeginAcks [line ("ACK a b c" ++ LF)] None)
    = Ok (true, r')
    /\ Chunk r' = Some (ackChunk "a" "b c")
    /\ strings_Contains (AckObjectID (ackChunk "a" "b c")) " " = false.
Proof.
  eexists. split; [reflexivity|]. split; [reflexivity|].
  apply (Scan_ack_id_without_space sampleGoSyntax
           (decoderAt StBeginAcks [line ("ACK a b c" ++ LF)] None) _ _
           eq_refl eq_refl).
Defined.

Lemma Scan_phase_after_witness :
  exists r',
    Scan sampleGoSyntax (decoderAt StScanShallows [line ("unshallow bbbb" ++ LF)] None)
    = Ok (true, r')
    /\ populated (unshallowChunk "bbbb") = 1
    /\ state r' = phase_after (unshallowChunk "bbbb").
Proof.
  eexists. split; [reflexivity|]. split; [reflexivity|].
  apply (Scan_phase_after sampleGoSyntax
           (decoderAt StScanShallows [line ("unshallow bbbb" ++ LF)] None) _ _
           eq_refl eq_refl eq_refl).
Defined.

Lemma Scan_then_EncodeToPktLine_witness :
  exists r',
    Scan sampleGoSyntax (decoderAt StBegin [line "shallow abc"] None) = Ok (true, r')
    /\ Chunk r' = Some (shallowChunk "abc")
    /\ populated (shallowChunk "abc") = 1
    /\ exists f,
         encodedPacket (shallowChunk "abc") = Ok f
         /\ EncodeToPktLine samplePktLine (shallowChunk "abc") = samplePktLine f
         /\ forall r2 rest2,
              live r2 -> state r2 = StBegin -> pending (scanner r2) = f :: rest2 ->
              exists r2',
                Scan sampleGoSyntax r2 = Ok (true, r2')
                /\ Chunk r2' = Some (shallowChunk "abc") /\ state r2' = state r'.
Proof.
  eexists. split; [reflexivity|]. split; [reflexivity|]. split; [reflexivity|].
  apply (Scan_then_EncodeToPktLine sampleGoSyntax samplePktLine
           (decoderAt StBegin [line "shallow abc"] None) _ _ eq_refl eq_refl eq_refl).
Defined.

Lemma encode_all_then_decode_witness :
  legal_sequence StBegin
    [shallowChunk "aaaa"; endOfShallowsChunk; ackChunk "bbbb" "continue";
     packChunk (bytes_of_string "PACK"); endOfRequestChunk]
  /\ exists frames,
       Forall2 (fun c f =>
                  encodedPacket c = Ok f
                  /\ EncodeToPktLine samplePktLine c = samplePktLine f)
         [shallowChunk "aaaa"; endOfShallowsChunk; ackChunk "bbbb" "continue";
          packChunk (bytes_of_string "PACK"); endOfRequestChunk]
         frames
       /\ (pending (scanner (decoderAt StBegin
             [line ("shallow aaaa" ++ LF); FlushPacket; line ("ACK bbbb continue" ++ LF);
              line "PACK"; FlushPacket] None)) = frames ->
           exists rf,
             decode sampleGoSyntax 6
               (decoderAt StBegin
                  [line ("shallow aaaa" ++ LF); FlushPacket;
                   line ("ACK bbbb continue" ++ LF); line "PACK"; FlushPacket] None)
             = Some (map Some
                       [shallowChunk "aaaa"; endOfShallowsChunk;
                        ackChunk "bbbb" "continue";
                        packChunk (bytes_of_string "PACK"); endOfRequestChunk], rf)
             /\ state rf = StEnd).
Proof.
  assert (Hleg : legal_sequence StBegin
            [shallowChunk "aaaa"; endOfShallowsChunk; ackChunk "bbbb" "continue";
             packChunk (bytes_of_string "PACK"); endOfRequestChunk]).
  { cbn [legal_sequence]. unfold wellformed.
    repeat split; try reflexivity; try discriminate. }
  split; [exact Hleg|].
  destruct (encode_all_then_decode sampleGoSyntax samplePktLine _
              (decoderAt StBegin
                 [line ("shallow aaaa" ++ LF); FlushPacket;
                  line ("ACK bbbb continue" ++ LF); line "PACK"; FlushPacket] None)
              eq_refl Hleg) as (frames & Hf & Hrun).
  exists frames. split; [exact Hf|]. intros Hp.
  destruct (Hrun Hp) as (rf & Hdec & Hst & _).
  exists rf. split; [exact Hdec | exact Hst].
Defined.

Lemma pack_phase_passthrough_witness :
  exists rf,
    decode sampleGoSyntax 4
      (decoderAt StScanPacks
         [line ("NAK" ++ LF); BytesPacket []; FlushPacket; line "after"] None)
    = Some ([Some (packChunk (bytes_of_string ("NAK" ++ LF))); Some (packChunk []);
             Some endOfRequestChunk], rf)
    /\ state rf = StEnd /\ Err rf = None /\ pending (scanner rf) = [line "after"].
Proof.
  apply (pack_phase_passthrough sampleGoSyntax [bytes_of_string ("NAK" ++ LF); []]
           (decoderAt StScanPacks
              [line ("NAK" ++ LF); BytesPacket []; FlushPacket; line "after"] None)
           [line "after"] eq_refl eq_refl eq_refl).
Defined.

Lemma decode_terminates_witness :
  length (pending (scanner (decoderAt StBegin [FlushPacket; OtherPacket 0] None))) <= 2
  /\ exists cs rf,
       decode sampleGoSyntax 3 (decoderAt StBegin [FlushPacket; OtherPacket 0] None)
       = Some (cs, rf)
       /\ length cs
          <= length (pending (scanner (decoderAt StBegin [FlushPacket; OtherPacket 0] None)))
       /\ Scan sampleGoSyntax rf = Ok (false, rf).
Proof.
  assert (H : length (pending (scanner (decoderAt StBegin [FlushPacket; OtherPacket 0] None)))
              <= 2) by (cbn; lia).
  split; [exact H|].
  apply (decode_terminates sampleGoSyntax 2 _ H).
Defined.

Lemma decode_chunks_ordered_witness :
  exists rf,
    decode sampleGoSyntax 5
      (NewProtocolV1UploadPackResponse
         ([line ("shallow aaaa" ++ LF); FlushPacket; line ("NAK" ++ LF); FlushPacket],
          None))
    = Some ([Some (shallowChunk "aaaa"); Some endOfShallowsChunk; Some nakChunk;
             Some endOfRequestChunk], rf)
    /\ state_rank (phase_after nakChunk) <= state_rank (last_phase endOfRequestChunk)
    /\ (phase_after nakChunk = StScanPacks ->
        ShallowObjectID endOfRequestChunk = ""
        /\ UnshallowObjectID endOfRequestChunk = ""
        /\ EndOfShallows endOfRequestChunk = false
        /\ AckObjectID endOfRequestChunk = "" /\ Nak endOfRequestChunk = false
        /\ (PackStream endOfRequestChunk <> [] \/ EndOfRequest endOfRequestChunk = true)).
Proof.
  eexists. split; [reflexivity|].
  apply (proj1 (decode_chunks_ordered sampleGoSyntax 5
           (NewProtocolV1UploadPackResponse
              ([line ("shallow aaaa" ++ LF); FlushPacket; line ("NAK" ++ LF); FlushPacket],
               None))
           _ _ eq_refl) 2 3);
    [lia | reflexivity | reflexivity | reflexivity | reflexivity].
Defined.

Lemma EncodeToPktLine_frame_witness :
  EncodeToPktLine samplePktLine nakChunk = Ok (bytes_of_string ("0008NAK" ++ LF))
  /\ exists f,
       encodedPacket nakChunk = Ok f
       /\ samplePktLine f = Ok (bytes_of_string ("0008NAK" ++ LF))
       /\ (f = FlushPacket \/ exists b bp, f = BytesPacket (b :: bp)).
Proof.
  split; [reflexivity|].
  apply (EncodeToPktLine_frame samplePktLine nakChunk _ eq_refl).
Defined.

(** ** Where a chunk without variant comes from, and what is always read *)

Lemma grammar_unpopulated st pkt st' c :
  grammar st pkt = Some (st', c) ->
  populated c = 0 ->
  exists bp,
    pkt = BytesPacket bp
    /\ (bp = []
        \/ (is_shallow bp = true /\ lineAfter 8 bp = "")
        \/ (is_unshallow bp = true /\ lineAfter 10 bp = "")
        \/ (is_ack bp = true /\ AckObjectID (ackOf (lineAfter 4 bp)) = "")).
Proof.
  unfold grammar. destruct pkt as [|bp|k]; [| |discriminate].
  - destruct (unshallow_phase st); [|destruct (pack_phase st)];
      intros H Hpop; inversion H; subst; discriminate Hpop.
  - intros H Hpop. exists bp. split; [reflexivity|]. revert H.
    destruct (shallow_phase st && is_shallow bp) eqn:E1.
    { intros H. inversion H; subst. apply andb_prop in E1.
      right; left. split; [apply E1|].
      destruct (lineAfter 8 bp); [reflexivity | discriminate Hpop]. }
    destruct (unshallow_phase st && is_unshallow bp) eqn:E2.
    { intros H. inversion H; subst. apply andb_prop in E2.
      right; right; left. split; [apply E2|].
      destruct (lineAfter 10 bp); [reflexivity | discriminate Hpop]. }
    destruct (ack_phase st && is_ack bp) eqn:E3.
    { intros H. inversion H; subst. apply andb_prop in E3.
      right; right; right. split; [apply E3|].
      destruct (ackOf_shape (lineAfter 4 bp)) as (id & det & Hshape & _).
      rewrite Hshape in *. destruct id; [reflexivity | discriminate Hpop]. }
    destruct (ack_phase st && is_nak bp).
    { intros H. inversion H; subst. discriminate Hpop. }
    destruct (pack_phase st); [|discriminate].
    intros H. inversion H; subst. left.
    destruct bp; [reflexivity | discriminate Hpop].
Qed.

Section Acceptance.

Variable GoSyntax : Packet -> string.

(** X13. A chunk without any variant comes only from a byte payload that
    is empty, or is a shallow, unshallow or ACK line whose object id is
    empty; a flush, a NAK and every other payload give exactly one
    variant. *)
Theorem Scan_unpopulated_chunk_origin r r' c :
  Scan GoSyntax r = Ok (true, r') ->
  Chunk r' = Some c ->
  (populated c = 0 \/ populated c = 1)
  /\ (populated c = 0 ->
      exists bp rest,
        pending (scanner r) = BytesPacket bp :: rest
        /\ (bp = []
            \/ (is_shallow bp = true /\ lineAfter 8 bp = "")
            \/ (is_unshallow bp = true /\ lineAfter 10 bp = "")
            \/ (is_ack bp = true /\ AckObjectID (ackOf (lineAfter 4 bp)) = ""))).
Proof.
  intros HS Hc.
  destruct (Scan_true_inv GoSyntax r r' HS) as (_ & pkt & c0 & Hp & Hg & Hc0 & _).
  assert (c0 = c) by congruence. subst c0. split.
  - pose proof (grammar_populated _ _ _ _ Hg). lia.
  - intros Hpop. destruct (grammar_unpopulated _ _ _ _ Hg Hpop) as (bp & -> & Hbp).
    exists bp, (pending (scanner r')). split; assumption.
Qed.

(** X14. What a decoder that can read never rejects: a flush in any phase,
    and a byte payload in any phase but Begin; past the first frame only a
    packet that is neither can stop the decoding with "unexpected
    packet". *)
Theorem Scan_accepts r pkt rest :
  live r ->
  pending (scanner r) = pkt :: rest ->
  pkt = FlushPacket \/ (state r <> StBegin /\ exists bp, pkt = BytesPacket bp) ->
  exists r' c,
    Scan GoSyntax r = Ok (true, r')
    /\ Chunk r' = Some c /\ Err r' = None /\ pending (scanner r') = rest.
Proof.
  intros Hl Hp Hk. rewrite (Scan_frame GoSyntax r pkt rest Hl Hp).
  assert (Hrec : recognized (state r) pkt = true).
  { destruct Hl as [_ Hend].
    destruct Hk as [-> | (Hb & bp & ->)]; unfold recognized.
    - destruct (state r); try reflexivity; congruence.
    - replace (pack_phase (state r)) with true
        by (destruct (state r); try reflexivity; congruence).
      apply orb_true_r. }
  apply grammar_recognized in Hrec. destruct Hrec as (st & c & Hg). rewrite Hg.
  do 2 eexists. split; [reflexivity|]. cbn. split; [reflexivity|].
  split; [apply Hl | reflexivity].
Qed.

End Acceptance.

Lemma Scan_unpopulated_chunk_origin_witness :
  exists r',
    Scan sampleGoSyntax (decoderAt StScanAcks [line ("ACK  ready" ++ LF)] None)
    = Ok (true, r')
    /\ Chunk r' = Some (ackChunk "" "ready")
    /\ populated (ackChunk "" "ready") = 0
    /\ exists bp rest,
         pending (scanner (decoderAt StScanAcks [line ("ACK  ready" ++ LF)] None))
         = BytesPacket bp :: rest
         /\ (bp = []
             \/ (is_shallow bp = true /\ lineAfter 8 bp = "")
             \/ (is_unshallow bp = true /\ lineAfter 10 bp = "")
             \/ (is_ack bp = true /\ AckObjectID (ackOf (lineAfter 4 bp)) = "")).
Proof.
  eexists. split; [reflexivity|]. split; [reflexivity|]. split; [reflexivity|].
  apply (proj2 (Scan_unpopulated_chunk_origin sampleGoSyntax
                  (decoderAt StScanAcks [line ("ACK  ready" ++ LF)] None) _ _
                  eq_refl eq_refl)).
  reflexivity.
Defined.

Lemma Scan_accepts_witness :
  live (decoderAt StScanShallows [line "anything"] None)
  /\ exists r' c,
       Scan sampleGoSyntax (decoderAt StScanShallows [line "anything"] None) = Ok (true, r')
       /\ Chunk r' = Some c /\ Err r' = None /\ pending (scanner r') = [].
Proof.
  assert (Hl : live (decoderAt StScanShallows [line "anything"] None))
    by (split; [reflexivity | discriminate]).
  split; [exact Hl|].
  apply (Scan_accepts sampleGoSyntax _ (line "anything") [] Hl eq_refl).
  right. split; [discriminate|]. eexists. reflexivity.
Defined.
